(** * express-jobly: the decision logic of the job-board service

    A shallow embedding of
      - helpers/subset.js   ([isSubset]),
      - helpers/sql.js      ([sqlForPartialUpdate]),
      - models/job.js       ([Job.findAll], [Job.get], [Job.requireTech]),
      - models/technology.js ([Technology.findAll]),
      - routes/users.js     (the [matched-jobs] handler),
    together with the properties the design document states about them.

    JavaScript values are embedded as [jsval]; numbers are the integers the
    store hands out (identifiers, salaries, placeholder indices), so no
    floating point is involved.  Objects used as maps are [gmap]s or, where
    the enumeration order is observable, association lists.  Code that
    talks to the database runs in a small state-and-exception monad over an
    explicit store; every [db.query] call also leaves an entry in a query
    log, so that "which retrievals happened" can be stated. *)

From Stdlib Require Import Ascii String DecimalString.
From stdpp Require Import gmap strings list.

Open Scope string_scope.
Open Scope list_scope.

(** ** JavaScript values *)

Inductive jsval : Type :=
  | JUndefined
  | JNull
  | JBool (b : bool)
  | JNum (n : Z)
  | JStr (s : string).

(** The empty string and the double-quote character, spelled out once. *)
Definition empty_str : string := EmptyString.
Definition dquote : string := String "034"%char EmptyString.

(** [String(n)] for a non-negative index and for an integer. *)
Definition string_of_nat (n : nat) : string :=
  NilEmpty.string_of_uint (Nat.to_uint n).
Definition string_of_Z (z : Z) : string :=
  NilZero.string_of_int (Z.to_int z).

(** ToBoolean: what [if (v)] and [v || w] test. *)
Definition truthy (v : jsval) : bool :=
  match v with
  | JUndefined => false
  | JNull => false
  | JBool b => b
  | JNum n => negb (n =? 0)%Z
  | JStr s => negb (String.eqb s empty_str)
  end.

(** Reading a property of a plain object: [undefined] when the key is
    absent.  This is also what destructuring [const { k } = obj] binds. *)
Definition prop (obj : gmap string jsval) (k : string) : jsval :=
  default JUndefined (obj !! k).

(** ToString, as a template literal applies it to an interpolated value. *)
Definition to_string (v : jsval) : string :=
  match v with
  | JUndefined => "undefined"
  | JNull => "null"
  | JBool true => "true"
  | JBool false => "false"
  | JNum n => string_of_Z n
  | JStr s => s
  end.

(** ** Errors and results

    [BadRequestError] and [NotFoundError] are the classes the sources throw;
    [Unauthenticated] and [Forbidden] are the two denial kinds of the design
    document's authorization policy. *)

Inductive error : Type :=
  | BadRequestError (msg : string)
  | NotFoundError (msg : string)
  | Unauthenticated
  | Forbidden.

Inductive result (A : Type) : Type :=
  | Ok (a : A)
  | Throw (e : error).
Arguments Ok {A} a.
Arguments Throw {A} e.

(** ** helpers/subset.js *)

Section Subset.
Context {A : Type} `{EqDecision A}.

(** [Array.prototype.indexOf]: the first index whose element is strictly
    equal to [x], scanning from [i]; [-1] when there is none. *)
Fixpoint indexOf_from (arr : list A) (x : A) (i : Z) : Z :=
  match arr with
  | [] => (-1)%Z
  | y :: ys => if decide (y = x) then i else indexOf_from ys x (i + 1)%Z
  end.

Definition indexOf (arr : list A) (x : A) : Z := indexOf_from arr x 0%Z.

(** The [for (let i of arr1)] loop of [isSubset]. *)
Fixpoint isSubset_loop (arr1 arr2 : list A) : bool :=
  match arr1 with
  | [] => true
  | i :: rest =>
      if (indexOf arr2 i =? -1)%Z then false else isSubset_loop rest arr2
  end.

Definition isSubset (arr1 arr2 : list A) : bool :=
  if Nat.eqb (length arr2) 0 then false
  else if Nat.eqb (length arr1) 0 then true
  else isSubset_loop arr1 arr2.
End Subset.

(** ** helpers/sql.js *)

Record partial_update : Type := PartialUpdate {
  setCols : string;
  values : list jsval
}.

(** [jsToSql[colName] || colName]: the table's entry unless it is missing
    or the empty string. *)
Definition column_of (jsToSql : gmap string string) (colName : string) : string :=
  match jsToSql !! colName with
  | Some c => if String.eqb c empty_str then colName else c
  | None => colName
  end.

(** The template literal ["${col}"=$${idx + 1}]. *)
Definition assignment (col : string) (idx : nat) : string :=
  dquote +:+ col +:+ dquote +:+ "=$" +:+ string_of_nat (idx + 1).

(** [dataToUpdate] is the request body as its own enumerable properties in
    enumeration order, the order of both [Object.keys] and [Object.values]. *)
Definition sqlForPartialUpdate
    (dataToUpdate : list (string * jsval)) (jsToSql : gmap string string)
    : result partial_update :=
  let keys := fst <$> dataToUpdate in
  if Nat.eqb (length keys) 0 then Throw (BadRequestError "No data")
  else
    let cols := imap (fun idx colName => assignment (column_of jsToSql colName) idx) keys in
    Ok {| setCols := String.concat ", " cols;
          values := snd <$> dataToUpdate |}.

(** ** The persistent store

    One list per table, rows in the order an unordered [SELECT] returns
    them.  Nullable columns are options; [equity] is a NUMERIC column, which
    the driver hands over as a string. *)

Record job_row : Type := JobRow {
  job_id : Z;
  job_title : string;
  job_salary : option Z;
  job_equity : option string;
  job_company_handle : string
}.

Record company_row : Type := CompanyRow {
  company_handle : string;
  company_name : string;
  company_description : string;
  company_num_employees : option Z;
  company_logo_url : option string
}.

Record technology_row : Type := TechnologyRow {
  technology_id : Z;
  technology_name : string
}.

Record user_row : Type := UserRow {
  user_username : string;
  user_is_admin : bool
}.

Record db : Type := Db {
  jobs : list job_row;
  companies : list company_row;
  technologies : list technology_row;
  requirements : list (Z * Z);          (* (job_id, tech_id) *)
  users : list user_row;
  users_techs : list (string * Z)       (* (username, tech_id) *)
}.

(** What a [db.query] call asked for; the log keeps them in call order. *)
Inductive query : Type :=
  | SelectJobs (whereClause : string) (params : list jsval)
  | SelectJob (id : Z)
  | SelectCompany (handle : string)
  | SelectRequirements (jobId : Z)
  | SelectJobId (jobId : Z)
  | SelectTechnologyId (techId : Z)
  | SelectRequirement (jobId techId : Z)
  | InsertRequirement (jobId techId : Z)
  | SelectTechnologies (whereClause : string) (params : list jsval)
  | SelectUser (username : string)
  | SelectUserTechs (username : string).

Record world : Type := World {
  store : db;
  log : list query
}.

(** ** The monad of model and route code: state plus exceptions *)

Definition M (A : Type) : Type := world -> result A * world.

Definition ret {A} (a : A) : M A := fun w => (Ok a, w).

Definition throw {A} (e : error) : M A := fun w => (Throw e, w).

Definition bind {A B} (m : M A) (k : A -> M B) : M B :=
  fun w =>
    match m w with
    | (Ok a, w') => k a w'
    | (Throw e, w') => (Throw e, w')
    end.

Notation "'await' x <~ m ;; k" := (bind m (fun x => k))
  (at level 10, x name, m at level 99, k at level 200, only parsing).

(** A [SELECT]: logged, answered from the store, the store untouched. *)
Definition db_select {A} (q : query) (answer : db -> A) : M A :=
  fun w => (Ok (answer (store w)), {| store := store w; log := log w ++ [q] |}).

(** [INSERT INTO requirements (job_id, tech_id) VALUES ($1, $2) RETURNING ...]:
    the row is appended and handed back. *)
Definition db_insert_requirement (jobId techId : Z) : M (list (Z * Z)) :=
  fun w =>
    let d := store w in
    (Ok [(jobId, techId)],
     {| store := {| jobs := jobs d; companies := companies d;
                    technologies := technologies d;
                    requirements := requirements d ++ [(jobId, techId)];
                    users := users d; users_techs := users_techs d |};
        log := log w ++ [InsertRequirement jobId techId] |}).

(** [rows[0]] *)
Definition first_row {A} (rows : list A) : option A := head rows.

(** [haystack.includes(needle)] *)
Fixpoint contains (needle haystack : string) : bool :=
  String.prefix needle haystack ||
  match haystack with
  | EmptyString => false
  | String _ rest => contains needle rest
  end.

(** After the filter is compiled, [searchQueries] holds either the array of
    fragments it started as or the string that replaced it. *)
Inductive array_or_string : Type :=
  | JsArray (items : list string)
  | JsString (s : string).

(** What a template literal makes of it: [Array.prototype.toString] joins
    with commas. *)
Definition interpolate (v : array_or_string) : string :=
  match v with
  | JsArray items => String.concat "," items
  | JsString s => s
  end.

(** Lines 61-63 of models/job.js and 58-60 of models/technology.js. *)
Definition where_of (searchQueries : list string) : array_or_string :=
  if negb (Nat.eqb (length searchQueries) 0)
  then JsString ("WHERE " +:+ String.concat " AND " searchQueries)
  else JsArray searchQueries.

(** ** models/job.js *)

Module Job.

(** A row of [findAll]. *)
Record listed : Type := Listed {
  listed_id : Z;
  listed_title : string;
  listed_salary : option Z;
  listed_equity : option string;
  listed_companyHandle : string;
  listed_companyName : option string
}.

Record requirement : Type := Requirement {
  techId : Z;
  techName : string
}.

(** The object [get] returns. *)
Record detail : Type := Detail {
  detail_id : Z;
  detail_title : string;
  detail_salary : option Z;
  detail_equity : option string;
  detail_company : option company_row;
  detail_requirements : list requirement
}.

(** Lines 39-59 of [findAll]: the three gated pushes. *)
Definition findAll_filters (searchFilter : gmap string jsval)
    : list string * list jsval :=
  let title := prop searchFilter "title" in
  let minSalary := prop searchFilter "minSalary" in
  let hasEquity := prop searchFilter "hasEquity" in
  let searchQueries : list string := [] in
  let values : list jsval := [] in
  let idx := 1 in
  let '(searchQueries, values, idx) :=
    if truthy title
    then (searchQueries ++ ["title ILIKE $" +:+ string_of_nat idx],
          values ++ [JStr ("%" +:+ to_string title +:+ "%")],
          idx + 1)
    else (searchQueries, values, idx) in
  let '(searchQueries, values, idx) :=
    if truthy minSalary
    then (searchQueries ++ ["salary >= $" +:+ string_of_nat idx],
          values ++ [minSalary],
          idx + 1)
    else (searchQueries, values, idx) in
  let searchQueries :=
    if truthy hasEquity
    then searchQueries ++ ["equity > 0"]
    else searchQueries in
  (searchQueries, values).

(** The query text of [findAll], white space normalised. *)
Definition findAll_sql (searchQueries : array_or_string) : string :=
  "SELECT id, title, salary, equity, jobs.company_handle AS "
  +:+ dquote +:+ "companyHandle" +:+ dquote
  +:+ ", companies.name AS " +:+ dquote +:+ "companyName" +:+ dquote
  +:+ " FROM jobs LEFT JOIN companies ON jobs.company_handle = companies.handle "
  +:+ interpolate searchQueries.

(** [jobs LEFT JOIN companies ON jobs.company_handle = companies.handle] *)
Definition joined (d : db) : list listed :=
  flat_map (fun j =>
    let row name :=
      {| listed_id := job_id j; listed_title := job_title j;
         listed_salary := job_salary j; listed_equity := job_equity j;
         listed_companyHandle := job_company_handle j;
         listed_companyName := name |} in
    match filter (fun c => company_handle c = job_company_handle j) (companies d) with
    | [] => [row None]
    | cs => (fun c => row (Some (company_name c))) <$> cs
    end) (jobs d).

Section Engine.
(** How the database decides a non-empty restriction on a joined row is
    not part of this repository. *)
Variable where_holds : string -> list jsval -> listed -> bool.

Definition select_jobs (searchQueries : array_or_string) (values : list jsval)
    (d : db) : list listed :=
  if String.eqb (interpolate searchQueries) empty_str then joined d
  else filter (fun r => where_holds (interpolate searchQueries) values r = true)
              (joined d).

Definition findAll (searchFilter : gmap string jsval) : M (list listed) :=
  let '(searchQueries, values) := findAll_filters searchFilter in
  let searchQueries := where_of searchQueries in
  db_select (SelectJobs (findAll_sql searchQueries) values)
            (select_jobs searchQueries values).
End Engine.

(** [requirements AS r JOIN technologies AS t ON r.tech_id = t.id
    WHERE job_id = $1] *)
Definition select_requirements (id : Z) (d : db) : list requirement :=
  flat_map (fun r : Z * Z =>
    (fun t => {| techId := r.2; techName := technology_name t |})
      <$> filter (fun t => r.2 = technology_id t) (technologies d))
    (filter (fun r : Z * Z => r.1 = id) (requirements d)).

(** [get]: the job with its company and its requirements; NotFoundError
    when no row has the id. *)
Definition get (id : Z) : M detail :=
  await jobRes <~ db_select (SelectJob id)
              (fun d => filter (fun j => job_id j = id) (jobs d)) ;;
  match first_row jobRes with
  | None => throw (NotFoundError ("No job: " +:+ string_of_Z id))
  | Some job =>
      await companiesRes <~ db_select (SelectCompany (job_company_handle job))
        (fun d => filter (fun c => company_handle c = job_company_handle job)
                         (companies d)) ;;
      await requirementsRes <~ db_select (SelectRequirements id)
        (select_requirements id) ;;
      ret {| detail_id := job_id job; detail_title := job_title job;
             detail_salary := job_salary job; detail_equity := job_equity job;
             detail_company := first_row companiesRes;
             detail_requirements := requirementsRes |}
  end.

(** [requireTech]: three checks, then the insertion; the answer is
    [result.rows[0]]. *)
Definition requireTech (jobId techId : Z) : M (option (Z * Z)) :=
  await checkJobId <~ db_select (SelectJobId jobId)
    (fun d => job_id <$> filter (fun j => job_id j = jobId) (jobs d)) ;;
  match first_row checkJobId with
  | None => throw (NotFoundError ("No job: " +:+ string_of_Z jobId))
  | Some _ =>
      await checkTechId <~ db_select (SelectTechnologyId techId)
        (fun d => technology_id <$>
                  filter (fun t => technology_id t = techId) (technologies d)) ;;
      match first_row checkTechId with
      | None => throw (NotFoundError ("No tech: " +:+ string_of_Z techId))
      | Some _ =>
          await duplicateCheck <~ db_select (SelectRequirement jobId techId)
            (fun d => filter (fun r : Z * Z => r.1 = jobId /\ r.2 = techId)
                             (requirements d)) ;;
          match first_row duplicateCheck with
          | Some _ => throw (BadRequestError "Duplicate tech requirement.")
          | None =>
              await result <~ db_insert_requirement jobId techId ;;
              ret (first_row result)
          end
      end
  end.

(** Lines 149-160 of [update]: the statement and the parameters handed to
    [db.query]; [sqlForPartialUpdate] throws before anything is sent.  The
    text is white space normalised. *)
Definition update_statement (id : jsval) (data : list (string * jsval))
    : result (string * list jsval) :=
  match sqlForPartialUpdate data {[ "companyHandle" := "company_handle" ]} with
  | Throw e => Throw e
  | Ok r =>
      let setCols := setCols r in
      let values := values r in
      let idVarIdx := "$" +:+ string_of_nat (length values + 1) in
      let querySql :=
        "UPDATE jobs SET " +:+ setCols +:+ " WHERE id = " +:+ idVarIdx
        +:+ " RETURNING id, title, salary, equity, company_handle AS "
        +:+ dquote +:+ "companyHandle" +:+ dquote in
      Ok (querySql, values ++ [id])
  end.

Section Schema.
(** Whether the rows of [requirements] that reference a deleted job go
    with it is fixed by the table definitions, which are not among the
    sources; both possibilities are covered. *)
Variable cascade : bool.

(** [DELETE FROM jobs WHERE id = $1 RETURNING id]: the identifiers of the
    deleted rows and the store afterwards. *)
Definition delete_job (id : Z) (d : db) : list Z * db :=
  let deleted := job_id <$> filter (fun j => job_id j = id) (jobs d) in
  (deleted,
   {| jobs := filter (fun j => job_id j <> id) (jobs d);
      companies := companies d;
      technologies := technologies d;
      requirements :=
        if cascade
        then filter (fun r : Z * Z => r.1 ∉ deleted) (requirements d)
        else requirements d;
      users := users d;
      users_techs := users_techs d |}).

(** [remove]: the deletion is issued first, its answer checked after. *)
Definition remove (id : Z) (d : db) : result unit * db :=
  let '(result, d') := delete_job id d in
  match first_row result with
  | None => (Throw (NotFoundError ("No job: " +:+ string_of_Z id)), d')
  | Some job => (Ok tt, d')
  end.
End Schema.

End Job.

(** ** models/technology.js *)

Module Technology.

Record listed : Type := Listed {
  listed_id : Z;
  listed_name : string
}.

(** Lines 46-56 of [findAll]: the single gated push. *)
Definition findAll_filters (searchFilter : gmap string jsval)
    : list string * list jsval :=
  let name := prop searchFilter "name" in
  let searchQueries : list string := [] in
  let values : list jsval := [] in
  let idx := 1 in
  let '(searchQueries, values, idx) :=
    if truthy name
    then (searchQueries ++ ["name ILIKE $" +:+ string_of_nat idx],
          values ++ [JStr ("%" +:+ to_string name +:+ "%")],
          idx + 1)
    else (searchQueries, values, idx) in
  (searchQueries, values).

Definition findAll_sql (searchQueries : array_or_string) : string :=
  "SELECT id, name FROM technologies " +:+ interpolate searchQueries.

Section Engine.
Variable where_holds : string -> list jsval -> listed -> bool.

Definition select_technologies (searchQueries : array_or_string)
    (values : list jsval) (d : db) : list listed :=
  let rows :=
    (fun t => {| listed_id := technology_id t;
                 listed_name := technology_name t |}) <$> technologies d in
  if String.eqb (interpolate searchQueries) empty_str then rows
  else filter (fun r => where_holds (interpolate searchQueries) values r = true) rows.

Definition findAll (searchFilter : gmap string jsval) : M (list listed) :=
  let '(searchQueries, values) := findAll_filters searchFilter in
  let searchQueries := where_of searchQueries in
  db_select (SelectTechnologies (findAll_sql searchQueries) values)
            (select_technologies searchQueries values).
End Engine.

Definition to_listed (t : technology_row) : listed :=
  {| listed_id := technology_id t; listed_name := technology_name t |}.

Section Sequence.
(** The identifier the [id] sequence hands to the next inserted row. *)
Variable next_id : db -> Z.

(** [create]: the duplicate check, then
    [INSERT INTO technologies (name) VALUES ($1) RETURNING id, name]. *)
Definition create (name : string) (d : db) : result (option listed) * db :=
  let duplicateCheck :=
    filter (fun t => technology_name t = name) (technologies d) in
  match first_row duplicateCheck with
  | Some _ => (Throw (BadRequestError ("Duplicate technology: " +:+ name)), d)
  | None =>
      let row := {| technology_id := next_id d; technology_name := name |} in
      let result := [to_listed row] in
      (Ok (first_row result),
       {| jobs := jobs d; companies := companies d;
          technologies := technologies d ++ [row];
          requirements := requirements d;
          users := users d; users_techs := users_techs d |})
  end.
End Sequence.

(** [get]: the technology with the id; NotFoundError when no row has it. *)
Definition get (id : Z) : M listed :=
  await techRes <~ db_select
    (SelectTechnologies "SELECT id, name FROM technologies WHERE id = $1" [JNum id])
    (fun d => to_listed <$> filter (fun t => technology_id t = id) (technologies d)) ;;
  match first_row techRes with
  | None => throw (NotFoundError ("No technology: " +:+ string_of_Z id))
  | Some tech => ret tech
  end.

(** Lines 107-115 of [update]: the statement and the parameters handed to
    [db.query], white space normalised. *)
Definition update_statement (id : jsval) (data : list (string * jsval))
    : result (string * list jsval) :=
  match sqlForPartialUpdate data ∅ with
  | Throw e => Throw e
  | Ok r =>
      let setCols := setCols r in
      let values := values r in
      let idVarIdx := "$" +:+ string_of_nat (length values + 1) in
      let querySql :=
        "UPDATE technologies SET " +:+ setCols +:+ " WHERE id = " +:+ idVarIdx
        +:+ " RETURNING id, name" in
      Ok (querySql, values ++ [id])
  end.

Section Schema.
(** Whether the rows of [requirements] and of the skill table that
    reference a deleted technology go with it is fixed by the table
    definitions, which are not among the sources. *)
Variable cascade : bool.

(** [DELETE FROM technologies WHERE id = $1 RETURNING id] *)
Definition delete_technology (id : Z) (d : db) : list Z * db :=
  let deleted :=
    technology_id <$> filter (fun t => technology_id t = id) (technologies d) in
  (deleted,
   {| jobs := jobs d;
      companies := companies d;
      technologies := filter (fun t => technology_id t <> id) (technologies d);
      requirements :=
        if cascade
        then filter (fun r : Z * Z => r.2 ∉ deleted) (requirements d)
        else requirements d;
      users := users d;
      users_techs :=
        if cascade
        then filter (fun ut : string * Z => ut.2 ∉ deleted) (users_techs d)
        else users_techs d |}).

Definition remove (id : Z) (d : db) : result unit * db :=
  let '(result, d') := delete_technology id d in
  match first_row result with
  | None => (Throw (NotFoundError ("No technology: " +:+ string_of_Z id)), d')
  | Some tech => (Ok tt, d')
  end.
End Schema.

End Technology.

(** ** models/user.js *)

Module User.

Record t : Type := Make {
  username : string;
  isAdmin : bool;
  techSkills : list Job.requirement     (* [{ techId, techName }, ...] *)
}.

(** [users_techs JOIN technologies] restricted to one user. *)
Definition select_techSkills (name : string) (d : db) : list Job.requirement :=
  flat_map (fun ut : string * Z =>
    (fun t => {| Job.techId := ut.2; Job.techName := technology_name t |})
      <$> filter (fun t => ut.2 = technology_id t) (technologies d))
    (filter (fun ut : string * Z => ut.1 = name) (users_techs d)).

(** Modelled from the spec: models/user.js, which defines [User.get], is
    not among the sources; only its caller in routes/users.js and the
    route tests are.  Following section 4.5, it resolves the identity and
    its skill records with read-only retrievals and signals [NotFound]
    when the identity does not exist. *)
Definition get (name : string) : M t :=
  await userRes <~ db_select (SelectUser name)
    (fun d => filter (fun u => user_username u = name) (users d)) ;;
  match first_row userRes with
  | None => throw (NotFoundError ("No user: " +:+ name))
  | Some user =>
      await skillsRes <~ db_select (SelectUserTechs name)
        (select_techSkills name) ;;
      ret {| username := user_username user; isAdmin := user_is_admin user;
             techSkills := skillsRes |}
  end.

(** [addTechSkill] of models/user.js: three checks, then
    [INSERT INTO techskills (username, tech_id) VALUES ($1, $2)
    RETURNING ...]; the table is the store's [users_techs].  The message
    for a missing technology says "job" in the source. *)
Definition addTechSkill (name : string) (techId : Z) (d : db)
    : result (option (string * Z)) * db :=
  let checkUsername :=
    user_username <$> filter (fun u => user_username u = name) (users d) in
  match first_row checkUsername with
  | None => (Throw (NotFoundError ("No user: " +:+ name)), d)
  | Some _ =>
      let checkTechId :=
        technology_id <$>
        filter (fun t => technology_id t = techId) (technologies d) in
      match first_row checkTechId with
      | None => (Throw (NotFoundError ("No job: " +:+ string_of_Z techId)), d)
      | Some _ =>
          let duplicateCheck :=
            filter (fun ut : string * Z => ut.1 = name /\ ut.2 = techId)
                   (users_techs d) in
          match first_row duplicateCheck with
          | Some _ =>
              (Throw (BadRequestError "Duplicate tech skill addition."), d)
          | None =>
              let result := [(name, techId)] in
              (Ok (first_row result),
               {| jobs := jobs d; companies := companies d;
                  technologies := technologies d;
                  requirements := requirements d;
                  users := users d;
                  users_techs := users_techs d ++ [(name, techId)] |})
          end
      end
  end.

End User.

(** ** middleware/auth.js *)

(** The authenticated identity of a request ([res.locals.user]). *)
Record identity : Type := Identity {
  subject : string;
  elevated : bool
}.

(** Modelled from the spec: middleware/auth.js, which defines
    [ensureAdminOrCorrectUser], is not among the sources; only the routes
    that install it and their tests are.  Following section 4.3
    ([ElevatedOrOwner]): allow when the role flag is elevated or the subject
    identifier equals the resource reference as a string; otherwise deny,
    as [Unauthenticated] when no identity was presented and as [Forbidden]
    when one was. *)
Definition ensureAdminOrCorrectUser (user : option identity) (username : string)
    : result unit :=
  match user with
  | None => Throw Unauthenticated
  | Some u =>
      if elevated u || String.eqb (subject u) username
      then Ok tt
      else Throw Forbidden
  end.

(** ** routes/users.js: GET /:username/matched-jobs *)

Section MatchedJobs.
Variable where_holds : string -> list jsval -> Job.listed -> bool.

(** The [for (let j of allJobs)] loop, [matchedJobs] being the array
    pushed to. *)
Fixpoint matched_jobs_loop (allJobs : list Job.listed)
    (userTechSkillIds : list Z) (matchedJobs : list Job.detail)
    : M (list Job.detail) :=
  match allJobs with
  | [] => ret matchedJobs
  | j :: rest =>
      await job <~ Job.get (Job.listed_id j) ;;
      let requiredSkillIds := Job.techId <$> Job.detail_requirements job in
      if isSubset requiredSkillIds userTechSkillIds
      then matched_jobs_loop rest userTechSkillIds (matchedJobs ++ [job])
      else matched_jobs_loop rest userTechSkillIds matchedJobs
  end.

(** The handler's [try] block; a thrown error is what [next(err)] gets. *)
Definition matched_jobs (username : string) : M (list Job.detail) :=
  let matchedJobs : list Job.detail := [] in
  await user <~ User.get username ;;
  let userTechSkillIds := Job.techId <$> User.techSkills user in
  await allJobs <~ Job.findAll where_holds ∅ ;;
  matched_jobs_loop allJobs userTechSkillIds matchedJobs.

(** The route: the policy runs first, the handler only if it allows. *)
Definition get_matched_jobs (user : option identity) (username : string)
    : M (list Job.detail) :=
  match ensureAdminOrCorrectUser user username with
  | Throw e => throw e
  | Ok _ => matched_jobs username
  end.
End MatchedJobs.

(** ** helpers/tokens.js *)

Section Tokens.
(** [jwt.sign] and the configured key are external. *)
Variable sign : list (string * jsval) -> string -> string.
Variable SECRET_KEY : string.



End Tokens.

(** ** Counting placeholders

    A placeholder is written [$n]; in a clause whose column names are free
    of dollar signs, the placeholders are the dollar signs. *)

Fixpoint count_char (c : ascii) (s : string) : nat :=
  match s with
  | EmptyString => 0
  | String a rest => (if Ascii.eqb a c then 1 else 0) + count_char c rest
  end.

Definition placeholders (clause : string) : nat := count_char "$"%char clause.

(** ** Counting filter keys *)




(** ** Vocabulary for the statements about the store *)

Definition job_exists (d : db) (jobId : Z) : Prop :=
  exists j, j ∈ jobs d /\ job_id j = jobId.

Definition technology_exists (d : db) (techId : Z) : Prop :=
  exists t, t ∈ technologies d /\ technology_id t = techId.

Definition user_exists (d : db) (username : string) : Prop :=
  exists u, u ∈ users d /\ user_username u = username.

(** Queries that change the store. *)
Definition is_write (q : query) : bool :=
  match q with
  | InsertRequirement _ _ => true
  | _ => false
  end.


(** The subset matcher applied to a listed posting: its requirement
    identifiers, as [Job.get] retrieves them, against the user's skills. *)
Definition matches (d : db) (userTechSkillIds : list Z) (j : Job.listed) : bool :=
  isSubset (Job.techId <$> Job.select_requirements (Job.listed_id j) d)
           userTechSkillIds.

(** The world after the queries [qs] were issued, the store being [d]. *)
Definition after (w : world) (d : db) (qs : list query) : world :=
  {| store := d; log := log w ++ qs |}.

(** The store with one more requirement row. *)
Definition with_requirement (d : db) (jobId techId : Z) : db :=
  {| jobs := jobs d; companies := companies d; technologies := technologies d;
     requirements := requirements d ++ [(jobId, techId)];
     users := users d; users_techs := users_techs d |}.

(** The store with one more skill row. *)
Definition with_skill (d : db) (name : string) (techId : Z) : db :=
  {| jobs := jobs d; companies := companies d; technologies := technologies d;
     requirements := requirements d; users := users d;
     users_techs := users_techs d ++ [(name, techId)] |}.

(** The fixture of the route tests, as far as they show it: three jobs of
    one company, three technologies, and users with and without skills. *)
Definition sample_db : db :=
  {| jobs :=
       [ {| job_id := 1; job_title := "J1"; job_salary := Some 1%Z;
            job_equity := Some "0.1"; job_company_handle := "c1" |};
         {| job_id := 2; job_title := "J2"; job_salary := Some 2%Z;
            job_equity := Some "0.2"; job_company_handle := "c1" |};
         {| job_id := 3; job_title := "J3"; job_salary := Some 3%Z;
            job_equity := None; job_company_handle := "c1" |} ];
     companies :=
       [ {| company_handle := "c1"; company_name := "C1";
            company_description := "Desc1";
            company_num_employees := Some 1%Z;
            company_logo_url := Some "http://c1.img" |} ];
     technologies :=
       [ {| technology_id := 10; technology_name := "tech1" |};
         {| technology_id := 11; technology_name := "tech2" |};
         {| technology_id := 12; technology_name := "tech3" |} ];
     requirements := [ (1, 10); (1, 11); (2, 10); (2, 11); (2, 12) ]%Z;
     users :=
       [ {| user_username := "u1"; user_is_admin := false |};
         {| user_username := "u2"; user_is_admin := false |};
         {| user_username := "u3"; user_is_admin := false |} ];
     users_techs :=
       [ ("u1", 10%Z); ("u1", 11%Z);
         ("u2", 10%Z); ("u2", 11%Z); ("u2", 12%Z);
         ("u3", 12%Z) ] |}.

Definition sample_world : world := {| store := sample_db; log := [] |}.

(** * Properties *)

(** ** The subset matcher *)

Section SubsetFacts.
Context {A : Type} `{EqDecision A}.
Implicit Types (x : A) (arr R S : list A).

Lemma indexOf_from_lower arr x i :
  x ∈ arr -> (i <= indexOf_from arr x i)%Z.
Proof.
  revert i. induction arr as [|y ys IH]; intros i Hin; simpl.
  - by apply not_elem_of_nil in Hin.
  - destruct (decide (y = x)) as [->|Hne]; [lia|].
    apply elem_of_cons in Hin as [Heq|Hin]; [congruence|].
    specialize (IH (i + 1)%Z Hin). lia.
Qed.

Lemma indexOf_from_absent arr x i :
  x ∉ arr -> indexOf_from arr x i = (-1)%Z.
Proof.
  revert i. induction arr as [|y ys IH]; intros i Hnin; simpl; [done|].
  apply not_elem_of_cons in Hnin as [Hne Hnin].
  destruct (decide (y = x)); [congruence|]. by apply IH.
Qed.

Lemma indexOf_minus_one arr x : indexOf arr x = (-1)%Z <-> x ∉ arr.
Proof.
  unfold indexOf. split.
  - intros Heq Hin. pose proof (indexOf_from_lower arr x 0 Hin). lia.
  - apply indexOf_from_absent.
Qed.

Lemma isSubset_loop_true R S :
  isSubset_loop R S = true <-> (forall x, x ∈ R -> x ∈ S).
Proof.
  induction R as [|r R IH]; simpl.
  - split; [|done]. intros _ x Hx. by apply not_elem_of_nil in Hx.
  - destruct (indexOf S r =? -1)%Z eqn:Hidx.
    + apply Z.eqb_eq, indexOf_minus_one in Hidx.
      split; [done|]. intros Hall. exfalso. apply Hidx, Hall. by left.
    + apply Z.eqb_neq in Hidx.
      assert (r ∈ S) as Hr.
      { destruct (decide (r ∈ S)) as [|Hn]; [done|].
        by apply indexOf_minus_one in Hn. }
      rewrite IH. split.
      * intros Hall x Hx. apply elem_of_cons in Hx as [->|Hx]; auto.
      * intros Hall x Hx. apply Hall. by right.
Qed.

(** C1, as the code has it: the empty requirement set is matched by every
    skill set that is itself non-empty, and by no other: against the empty
    skill set the matcher answers false even for the empty requirement
    set. *)
Theorem isSubset_nil_requirements S :
  (S <> [] -> isSubset [] S = true) /\ isSubset [] (@nil A) = false.
Proof.
  split; [|reflexivity].
  intros HS. destruct S as [|s S]; [done|]. reflexivity.
Qed.

(** C2: for a non-empty requirement set [R], the matcher answers true
    exactly when every element of [R] occurs in [S]; in particular it
    answers false against the empty skill set. *)
Theorem isSubset_nonempty_requirements R S :
  R <> [] ->
  (isSubset R S = true <-> (forall x, x ∈ R -> x ∈ S))
  /\ isSubset R [] = false.
Proof.
  intros HR. split; [|reflexivity].
  destruct R as [|r R]; [done|]. unfold isSubset.
  destruct S as [|s S]; simpl length; simpl Nat.eqb; cbv iota.
  - split; [done|]. intros Hall.
    exfalso. eapply not_elem_of_nil, (Hall r). by left.
  - apply isSubset_loop_true.
Qed.
End SubsetFacts.

(** C1 as the specification words it fails on the code: with no recorded
    skills, the unconstrained posting is not matched. *)
Lemma isSubset_nil_nil_counterexample :
  isSubset (@nil Z) (@nil Z) = false
  /\ ~ (forall S : list Z, isSubset [] S = true).
Proof.
  split; [reflexivity|].
  intros Hall. specialize (Hall []). discriminate Hall.
Qed.

Lemma isSubset_nil_requirements_witness :
  isSubset [] [1; 2]%Z = true.
Proof.
  apply (proj1 (isSubset_nil_requirements [1; 2]%Z)). discriminate.
Defined.

Lemma isSubset_nonempty_requirements_witness :
  (isSubset [1]%Z [1; 2]%Z = true <-> (forall x, x ∈ [1]%Z -> x ∈ [1; 2]%Z))
  /\ isSubset [1]%Z [] = false.
Proof.
  apply (isSubset_nonempty_requirements [1]%Z [1; 2]%Z). discriminate.
Defined.

(** The cases of helpers/subset.test.js. *)
Example isSubset_test_is_subset :
  isSubset [0; 1]%Z [0; 1; 2]%Z = true /\ isSubset [0; 1]%Z [0; 1]%Z = true.
Proof. split; reflexivity. Qed.

Example isSubset_test_is_not_subset :
  isSubset [0; 1]%Z [1; 2]%Z = false /\ isSubset [0; 1]%Z [0]%Z = false.
Proof. split; reflexivity. Qed.

Example isSubset_test_empty :
  isSubset [] [1; 2]%Z = true
  /\ isSubset [0]%Z [] = false
  /\ isSubset (@nil Z) [] = false.
Proof. repeat split; reflexivity. Qed.

(** ** The parameter binder *)

Lemma count_char_app c (s1 s2 : string) :
  count_char c (s1 +:+ s2) = count_char c s1 + count_char c s2.
Proof. induction s1 as [|a s1 IH]; simpl; [done|]. rewrite IH. lia. Qed.

Lemma count_dollar_string_of_uint u :
  count_char "$"%char (NilEmpty.string_of_uint u) = 0.
Proof. induction u; simpl; auto. Qed.

Lemma placeholders_assignment col idx :
  placeholders (assignment col idx) = S (placeholders col).
Proof.
  unfold placeholders, assignment, string_of_nat.
  rewrite !count_char_app, count_dollar_string_of_uint. simpl. lia.
Qed.

Lemma placeholders_join sep (frags : list string) :
  placeholders sep = 0 ->
  placeholders (String.concat sep frags) = sum_list (placeholders <$> frags).
Proof.
  intros Hsep. unfold placeholders in *.
  induction frags as [|x frags IH]; [done|].
  destruct frags as [|y frags].
  - simpl. lia.
  - change (String.concat sep (x :: y :: frags))
      with (x +:+ sep +:+ String.concat sep (y :: frags)).
    rewrite !count_char_app, Hsep, IH. simpl. lia.
Qed.

Lemma sum_placeholders_imap (f : nat -> string -> string) (keys : list string) :
  (forall i k, k ∈ keys -> placeholders (f i k) = 1) ->
  sum_list (placeholders <$> imap f keys) = length keys.
Proof.
  revert f. induction keys as [|k keys IH]; intros f Hone; [done|].
  simpl. rewrite Hone by (by left). f_equal.
  apply IH. intros i k' Hk'. apply Hone. by right.
Qed.

Lemma column_of_absent (jsToSql : gmap string string) k :
  jsToSql !! k = None -> column_of jsToSql k = k.
Proof. intros Hk. unfold column_of. by rewrite Hk. Qed.


(** C6: an empty field-update set is refused with the error the binder
    raises for "nothing to update", whatever the name table; no clause and
    no value list come back. *)
Theorem sqlForPartialUpdate_empty (jsToSql : gmap string string) :
  sqlForPartialUpdate [] jsToSql = Throw (BadRequestError "No data")
  /\ (forall r, sqlForPartialUpdate [] jsToSql <> Ok r).
Proof. split; [reflexivity|]. intros r. discriminate. Qed.



(** The example of the design document, and the one of the source's
    comment. *)
Example sqlForPartialUpdate_name :
  sqlForPartialUpdate [("name", JStr "X")] ∅
  = Ok {| setCols := dquote +:+ "name" +:+ dquote +:+ "=$1";
          values := [JStr "X"] |}.
Proof. vm_compute. reflexivity. Qed.

Example sqlForPartialUpdate_firstName_age :
  sqlForPartialUpdate [("firstName", JStr "Aliya"); ("age", JNum 32)]
    {[ "firstName" := "first_name" ]}
  = Ok {| setCols := dquote +:+ "first_name" +:+ dquote +:+ "=$1, "
                     +:+ dquote +:+ "age" +:+ dquote +:+ "=$2";
          values := [JStr "Aliya"; JNum 32] |}.
Proof. vm_compute. reflexivity. Qed.

(** ** The filter compiler *)


Lemma where_of_nil : interpolate (where_of []) = empty_str.
Proof. reflexivity. Qed.




(** The filter of the route test "filtering on 2 filters", with the equity
    gate added. *)
Example findAll_filters_three :
  Job.findAll_filters
    {[ "minSalary" := JNum 2; "title" := JStr "3"; "hasEquity" := JBool true ]}
  = (["title ILIKE $1"; "salary >= $2"; "equity > 0"], [JStr "%3%"; JNum 2]).
Proof. vm_compute. reflexivity. Qed.

Example findAll_where_three :
  interpolate (where_of ["title ILIKE $1"; "salary >= $2"; "equity > 0"])
  = "WHERE title ILIKE $1 AND salary >= $2 AND equity > 0".
Proof. reflexivity. Qed.

(** C8: a filter set with none of its keys present compiles to no
    fragment and no parameter; the text interpolated into the query is
    empty, so the query sent holds no WHERE at all and every row comes
    back.  The same holds for the technology filter. *)
Theorem findAll_empty_filter (searchFilter : gmap string jsval) :
  searchFilter = ∅ ->
  Job.findAll_filters searchFilter = ([], [])
  /\ interpolate (where_of (Job.findAll_filters searchFilter).1) = empty_str
  /\ contains "WHERE" (Job.findAll_sql (where_of (Job.findAll_filters searchFilter).1))
     = false
  /\ (forall where_holds w,
       Job.findAll where_holds searchFilter w
       = (Ok (Job.joined (store w)),
          {| store := store w;
             log := log w ++ [SelectJobs (Job.findAll_sql (JsArray [])) []] |}))
  /\ Technology.findAll_filters searchFilter = ([], [])
  /\ contains "WHERE"
       (Technology.findAll_sql (where_of (Technology.findAll_filters searchFilter).1))
     = false
  /\ (forall where_holds w,
       Technology.findAll where_holds searchFilter w
       = (Ok ((fun t => {| Technology.listed_id := technology_id t;
                           Technology.listed_name := technology_name t |})
                <$> technologies (store w)),
          {| store := store w;
             log := log w ++ [SelectTechnologies (Technology.findAll_sql (JsArray [])) []] |})).
Proof.
  intros ->. repeat split; try (vm_compute; reflexivity).
Qed.

Lemma findAll_empty_filter_witness :
  Job.findAll_filters ∅ = ([], [])
  /\ contains "WHERE" (Job.findAll_sql (where_of (Job.findAll_filters ∅).1)) = false.
Proof.
  destruct (findAll_empty_filter ∅ eq_refl) as (H1 & _ & H3 & _).
  split; [exact H1 | exact H3].
Defined.

(** ** The authorization policy *)

(** C5: on a route gated by [ensureAdminOrCorrectUser], an elevated
    identity is allowed whatever the target; a standard identity is allowed
    when its subject identifier is the resource reference, character for
    character; any other presented identity is denied as [Forbidden]; no
    identity is denied as [Unauthenticated]. *)
Theorem ensureAdminOrCorrectUser_decision (user : option identity) (username : string) :
  (forall u, user = Some u -> elevated u = true ->
     ensureAdminOrCorrectUser user username = Ok tt)
  /\ (forall u, user = Some u -> elevated u = false -> subject u = username ->
     ensureAdminOrCorrectUser user username = Ok tt)
  /\ (forall u, user = Some u -> elevated u = false -> subject u <> username ->
     ensureAdminOrCorrectUser user username = Throw Forbidden)
  /\ (user = None ->
     ensureAdminOrCorrectUser user username = Throw Unauthenticated).
Proof.
  repeat split.
  - intros u -> Hadm. simpl. by rewrite Hadm.
  - intros u -> Hadm Heq. simpl. rewrite Hadm. simpl.
    by apply String.eqb_eq in Heq as ->.
  - intros u -> Hadm Hne. simpl. rewrite Hadm. simpl.
    by apply String.eqb_neq in Hne as ->.
  - by intros ->.
Qed.

Lemma ensureAdminOrCorrectUser_decision_witness :
  ensureAdminOrCorrectUser (Some {| subject := "u2"; elevated := false |}) "u1"
  = Throw Forbidden.
Proof.
  destruct (ensureAdminOrCorrectUser_decision
              (Some {| subject := "u2"; elevated := false |}) "u1")
    as (_ & _ & Hdeny & _).
  apply (Hdeny _ eq_refl eq_refl). discriminate.
Defined.

(** Ownership is equality of the whole string: neither another case nor a
    prefix of the resource reference passes. *)
Example ensureAdminOrCorrectUser_case_sensitive :
  ensureAdminOrCorrectUser (Some {| subject := "Alice"; elevated := false |}) "alice"
  = Throw Forbidden.
Proof. reflexivity. Qed.

Example ensureAdminOrCorrectUser_no_prefix :
  ensureAdminOrCorrectUser (Some {| subject := "al"; elevated := false |}) "alice"
  = Throw Forbidden.
Proof. reflexivity. Qed.

(** A denied request never reaches the handler: no query is issued. *)
Lemma get_matched_jobs_denied where_holds user username e w :
  ensureAdminOrCorrectUser user username = Throw e ->
  get_matched_jobs where_holds user username w = (Throw e, w).
Proof. intros Hdeny. unfold get_matched_jobs. by rewrite Hdeny. Qed.

(** ** Rows and first rows *)

Section FirstRow.
Context {A : Type} (P : A -> Prop) `{forall x, Decision (P x)}.

Lemma first_row_filter_None (rows : list A) :
  first_row (filter P rows) = None <-> (forall x, x ∈ rows -> ~ P x).
Proof.
  unfold first_row. induction rows as [|r rows IH].
  - split; [|done]. intros _ x Hx. by apply not_elem_of_nil in Hx.
  - rewrite filter_cons. destruct (decide (P r)) as [Hr|Hr]; simpl.
    + split; [done|]. intros Hall. exfalso. apply (Hall r); [by left|done].
    + rewrite IH. split.
      * intros Hall x Hx. apply elem_of_cons in Hx as [->|Hx]; auto.
      * intros Hall x Hx. apply Hall. by right.
Qed.

Lemma first_row_filter_Some (rows : list A) x :
  first_row (filter P rows) = Some x -> x ∈ rows /\ P x.
Proof.
  unfold first_row. induction rows as [|r rows IH]; [done|].
  rewrite filter_cons. destruct (decide (P r)) as [Hr|Hr]; simpl.
  - intros [= ->]. split; [by left|done].
  - intros Hx. destruct (IH Hx) as [Hin HP]. split; [by right|done].
Qed.

Lemma first_row_filter_is_Some (rows : list A) x :
  x ∈ rows -> P x -> exists y, first_row (filter P rows) = Some y.
Proof.
  intros Hin HP.
  destruct (first_row (filter P rows)) as [y|] eqn:Hhead; [by exists y|].
  exfalso. by eapply first_row_filter_None.
Qed.
End FirstRow.

Lemma first_row_fmap {A B} (f : A -> B) (rows : list A) :
  first_row (f <$> rows) = f <$> first_row rows.
Proof. by destruct rows. Qed.

(** ** Recording a requirement *)

Lemma job_exists_first_row d jobId :
  job_exists d jobId <->
  is_Some (first_row (job_id <$> filter (fun j => job_id j = jobId) (jobs d))).
Proof.
  rewrite first_row_fmap, fmap_is_Some. split.
  - intros (j & Hin & Hid).
    destruct (first_row_filter_is_Some (fun j => job_id j = jobId) (jobs d) j Hin Hid)
      as [y Hy].
    by exists y.
  - intros [j Hj]. apply first_row_filter_Some in Hj as [Hin Hid]. by exists j.
Qed.

Lemma technology_exists_first_row d techId :
  technology_exists d techId <->
  is_Some (first_row (technology_id <$>
                      filter (fun t => technology_id t = techId) (technologies d))).
Proof.
  rewrite first_row_fmap, fmap_is_Some. split.
  - intros (t & Hin & Hid).
    destruct (first_row_filter_is_Some
                (fun t => technology_id t = techId) (technologies d) t Hin Hid)
      as [y Hy].
    by exists y.
  - intros [t Ht]. apply first_row_filter_Some in Ht as [Hin Hid]. by exists t.
Qed.

Lemma requirement_first_row d jobId techId :
  (jobId, techId) ∈ requirements d <->
  is_Some (first_row (filter (fun r : Z * Z => r.1 = jobId /\ r.2 = techId)
                             (requirements d))).
Proof.
  split.
  - intros Hin.
    destruct (first_row_filter_is_Some
                (fun r : Z * Z => r.1 = jobId /\ r.2 = techId)
                (requirements d) (jobId, techId) Hin) as [y Hy]; [done|].
    by exists y.
  - intros [[j t] Hr]. apply first_row_filter_Some in Hr as [Hin [Hj Ht]].
    simpl in *. by subst.
Qed.

(** The four ways [requireTech] can run, with the world each leaves. *)
Lemma requireTech_cases jobId techId w :
  let d := store w in
  (~ job_exists d jobId
   /\ Job.requireTech jobId techId w
      = (Throw (NotFoundError ("No job: " +:+ string_of_Z jobId)),
         after w d [SelectJobId jobId]))
  \/ (job_exists d jobId /\ ~ technology_exists d techId
      /\ Job.requireTech jobId techId w
         = (Throw (NotFoundError ("No tech: " +:+ string_of_Z techId)),
            after w d [SelectJobId jobId; SelectTechnologyId techId]))
  \/ (job_exists d jobId /\ technology_exists d techId
      /\ (jobId, techId) ∈ requirements d
      /\ Job.requireTech jobId techId w
         = (Throw (BadRequestError "Duplicate tech requirement."),
            after w d [SelectJobId jobId; SelectTechnologyId techId;
                       SelectRequirement jobId techId]))
  \/ (job_exists d jobId /\ technology_exists d techId
      /\ ((jobId, techId) ∉ requirements d)
      /\ Job.requireTech jobId techId w
         = (Ok (Some (jobId, techId)),
            after w (with_requirement d jobId techId)
              [SelectJobId jobId; SelectTechnologyId techId;
               SelectRequirement jobId techId; InsertRequirement jobId techId])).
Proof.
  intros d. subst d.
  pose proof (job_exists_first_row (store w) jobId) as Hjob.
  pose proof (technology_exists_first_row (store w) techId) as Htech.
  pose proof (requirement_first_row (store w) jobId techId) as Hreq.
  unfold Job.requireTech, bind, db_select, db_insert_requirement, throw, ret, after.
  cbn [store log].
  destruct (first_row (job_id <$> _)) as [j|].
  2:{ left. split; [|done]. rewrite Hjob. by intros [? ?]. }
  right.
  assert (job_exists (store w) jobId) as Hj by (apply Hjob; eauto).
  cbn [store log].
  destruct (first_row (technology_id <$> _)) as [t|].
  2:{ left. split; [done|]. split; [rewrite Htech; by intros [? ?]|].
      cbn [store log]. by rewrite <- app_assoc. }
  right.
  assert (technology_exists (store w) techId) as Ht by (apply Htech; eauto).
  cbn [store log].
  destruct (first_row (filter _ (requirements (store w)))) as [r|].
  - left. repeat (split; [done|]). split; [apply Hreq; eauto|].
    cbn [store log]. by rewrite <- !app_assoc.
  - right. repeat (split; [done|]). split; [rewrite Hreq; by intros [? ?]|].
    cbn [store log]. by rewrite <- !app_assoc.
Qed.

(** C10: [requireTech] answers NotFound when the job or the technology
    does not exist and BadRequest when both exist and the pair is already
    recorded; in every failing run the store is left as it was and no
    insertion was issued; otherwise it appends the pair.  Hence a
    requirements relation without duplicate pairs stays without
    duplicates. *)
Theorem requireTech_guards (jobId techId : Z) (w : world) :
  let d := store w in
  let res := (Job.requireTech jobId techId w).1 in
  let w' := (Job.requireTech jobId techId w).2 in
  (~ job_exists d jobId \/ ~ technology_exists d techId ->
     (exists msg, res = Throw (NotFoundError msg)) /\ store w' = d)
  /\ (job_exists d jobId -> technology_exists d techId ->
      (jobId, techId) ∈ requirements d ->
      res = Throw (BadRequestError "Duplicate tech requirement.") /\ store w' = d)
  /\ (forall e, res = Throw e ->
      store w' = d
      /\ exists qs, log w' = log w ++ qs /\ Forall (fun q => is_write q = false) qs)
  /\ (job_exists d jobId -> technology_exists d techId ->
      (jobId, techId) ∉ requirements d ->
      res = Ok (Some (jobId, techId))
      /\ requirements (store w') = requirements d ++ [(jobId, techId)])
  /\ (NoDup (requirements d) -> NoDup (requirements (store w'))).
Proof.
  intros d res w'. subst d res w'.
  destruct (requireTech_cases jobId techId w)
    as [(Hj & ->) | [(Hj & Ht & ->) | [(Hj & Ht & Hr & ->) | (Hj & Ht & Hr & ->)]]];
    cbn [fst snd after store log with_requirement requirements].
  all: split; [intros Hor | split; [intros Hj' Ht' Hr' | split;
         [intros e He | split; [intros Hj' Ht' Hr' | intros Hnd]]]].
  all: try done.
  all: try (by destruct Hor).
  all: try (by split; eauto).
  all: try (split; [done|]; eexists; split; [done|]; by repeat constructor).
  apply NoDup_app. split; [done|]. split.
  - intros x Hx Hx'. apply list_elem_of_singleton in Hx'. by subst.
  - apply NoDup_singleton.
Qed.

Lemma requireTech_guards_witness :
  (Job.requireTech 1 10 sample_world).1
  = Throw (BadRequestError "Duplicate tech requirement.")
  /\ store (Job.requireTech 1 10 sample_world).2 = sample_db.
Proof.
  destruct (requireTech_guards 1 10 sample_world) as (_ & Hdup & _).
  apply Hdup.
  - eexists. split; [apply list_elem_of_here | reflexivity].
  - eexists. split; [apply list_elem_of_here | reflexivity].
  - apply list_elem_of_here.
Defined.

Example requireTech_new_requirement :
  Job.requireTech 1 12 sample_world
  = (Ok (Some (1, 12)%Z),
     after sample_world (with_requirement sample_db 1 12)
       [SelectJobId 1; SelectTechnologyId 12; SelectRequirement 1 12;
        InsertRequirement 1 12]).
Proof. vm_compute. reflexivity. Qed.

Example requireTech_missing_job :
  Job.requireTech 0 12 sample_world
  = (Throw (NotFoundError "No job: 0"), after sample_world sample_db [SelectJobId 0]).
Proof. vm_compute. reflexivity. Qed.

(** ** The recommendation assembler *)

Lemma Job_get_store id w : store (Job.get id w).2 = store w.
Proof.
  unfold Job.get, bind, db_select, throw, ret. cbn [store log].
  by destruct (first_row _).
Qed.

Lemma Job_get_found id w :
  job_exists (store w) id ->
  exists job w',
    Job.get id w = (Ok job, w')
    /\ store w' = store w
    /\ Job.detail_id job = id
    /\ Job.detail_requirements job = Job.select_requirements id (store w).
Proof.
  intros (j & Hin & Hid).
  destruct (first_row_filter_is_Some (fun j => job_id j = id) (jobs (store w)) j Hin Hid)
    as [job Hjob].
  unfold Job.get, bind, db_select, throw, ret. cbn [store log].
  rewrite Hjob. eexists _, _. split; [reflexivity|].
  apply first_row_filter_Some in Hjob as [_ Hjid].
  by repeat split.
Qed.





Section Assembler.
Variable where_holds : string -> list jsval -> Job.listed -> bool.


End Assembler.



(** The route tests: u1 (tech1, tech2) matches J1 and the unconstrained J3;
    u2 (all three) matches every posting; u3 matches only J3. *)
Example matched_jobs_u1 :
  (fun r => match r with Ok l => Ok (Job.detail_id <$> l) | Throw e => Throw e end)
    (matched_jobs (fun _ _ _ => true) "u1" sample_world).1
  = Ok [1; 3]%Z.
Proof. vm_compute. reflexivity. Qed.

Example matched_jobs_u2 :
  (fun r => match r with Ok l => Ok (Job.detail_id <$> l) | Throw e => Throw e end)
    (matched_jobs (fun _ _ _ => true) "u2" sample_world).1
  = Ok [1; 2; 3]%Z.
Proof. vm_compute. reflexivity. Qed.

Example matched_jobs_u3 :
  (fun r => match r with Ok l => Ok (Job.detail_id <$> l) | Throw e => Throw e end)
    (matched_jobs (fun _ _ _ => true) "u3" sample_world).1
  = Ok [3]%Z.
Proof. vm_compute. reflexivity. Qed.



(** * Further properties of the code *)

(** ** The subset matcher as an order *)

Section SubsetOrder.
Context {A : Type} `{EqDecision A}.
Implicit Types (R S T : list A).

Lemma isSubset_true R S :
  isSubset R S = true <-> S <> [] /\ (forall x, x ∈ R -> x ∈ S).
Proof.
  unfold isSubset. destruct S as [|s S]; simpl length; simpl Nat.eqb; cbv iota.
  - split; [done|]. by intros [? _].
  - destruct R as [|r R]; simpl length; simpl Nat.eqb; cbv iota.
    + split; [|done]. intros _. split; [done|].
      intros x Hx. by apply not_elem_of_nil in Hx.
    + rewrite isSubset_loop_true. split; [by intros ?|by intros [_ ?]].
Qed.

Lemma isSubset_weaken R R' S S' :
  isSubset R S = true ->
  (forall x, x ∈ R' -> x ∈ R) ->
  (forall x, x ∈ S -> x ∈ S') ->
  isSubset R' S' = true.
Proof.
  rewrite !isSubset_true. intros [HS HRS] HR' HSS'. split.
  - destruct S as [|s S]; [done|]. intros ->.
    eapply not_elem_of_nil, (HSS' s). by left.
  - auto.
Qed.

(** X1: Gaining skills or dropping requirements never loses a match: if [R] is
    matched by [S], then every requirement list drawn from [R] is matched
    by every skill list that contains [S]. *)
Theorem isSubset_monotone R R' S S' :
  isSubset R S = true ->
  (forall x, x ∈ R' -> x ∈ R) ->
  (forall x, x ∈ S -> x ∈ S') ->
  isSubset R' S' = true.
Proof.
  rewrite !isSubset_true. intros [HS HRS] HR' HSS'. split.
  - destruct S as [|s S]; [done|]. intros ->.
    eapply not_elem_of_nil, (HSS' s). by left.
  - intros x Hx. apply HSS', HRS, HR', Hx.
Qed.

(** X2: The answer depends only on which identifiers occur in the two arrays,
    not on their order or on repetitions. *)
Theorem isSubset_same_elements R R' S S' :
  (forall x, x ∈ R <-> x ∈ R') ->
  (forall x, x ∈ S <-> x ∈ S') ->
  isSubset R S = isSubset R' S'.
Proof.
  intros HR HS.
  destruct (isSubset R S) eqn:H1; destruct (isSubset R' S') eqn:H2; try done.
  - rewrite <- H2. symmetry.
    apply (isSubset_weaken R R' S S' H1); intros x; [apply HR | apply HS].
  - rewrite <- H1.
    apply (isSubset_weaken R' R S' S H2); intros x; [apply HR | apply HS].
Qed.

(** X3: A list is matched by itself exactly when it is not empty, and matching
    is transitive. *)
Theorem isSubset_preorder R S T :
  (isSubset S S = true <-> S <> [])
  /\ (isSubset R S = true -> isSubset S T = true -> isSubset R T = true).
Proof.
  split.
  - rewrite isSubset_true. split; [by intros [? _]|]. by intros ?.
  - rewrite !isSubset_true. intros [_ HRS] [HT HST]. split; auto.
Qed.
End SubsetOrder.

Lemma isSubset_monotone_witness :
  isSubset [1]%Z [3; 2; 1]%Z = true.
Proof.
  apply (isSubset_monotone [1; 2]%Z [1]%Z [1; 2]%Z [3; 2; 1]%Z).
  - reflexivity.
  - intros x Hx. apply list_elem_of_singleton in Hx as ->. by left.
  - intros x Hx. apply elem_of_cons in Hx as [->|Hx].
    + do 2 right. by left.
    + apply list_elem_of_singleton in Hx as ->. right. by left.
Defined.

Lemma isSubset_same_elements_witness :
  isSubset [1; 1]%Z [2; 1]%Z = isSubset [1]%Z [1; 2; 2]%Z.
Proof.
  apply (isSubset_same_elements [1; 1]%Z [1]%Z [2; 1]%Z [1; 2; 2]%Z).
  - intros x. rewrite !elem_of_cons, !elem_of_nil. tauto.
  - intros x. rewrite !elem_of_cons, !elem_of_nil. tauto.
Defined.

Lemma isSubset_preorder_witness :
  isSubset [1]%Z [1; 2; 3]%Z = true.
Proof.
  destruct (isSubset_preorder [1]%Z [1; 2]%Z [1; 2; 3]%Z) as [_ Htrans].
  apply Htrans; reflexivity.
Defined.

(** ** Statements and their parameters *)

Lemma sqlForPartialUpdate_Ok (data : list (string * jsval))
    (jsToSql : gmap string string) :
  data <> [] ->
  sqlForPartialUpdate data jsToSql
  = Ok {| setCols :=
            String.concat ", "
              (imap (fun idx colName => assignment (column_of jsToSql colName) idx)
                    (fst <$> data));
          values := snd <$> data |}.
Proof. intros Hne. by destruct data. Qed.

Lemma placeholders_setCols (data : list (string * jsval))
    (jsToSql : gmap string string) :
  (forall k v, (k, v) ∈ data -> placeholders (column_of jsToSql k) = 0) ->
  placeholders
    (String.concat ", "
       (imap (fun idx colName => assignment (column_of jsToSql colName) idx)
             (fst <$> data)))
  = length data.
Proof.
  intros Hcols. rewrite placeholders_join by reflexivity.
  rewrite sum_placeholders_imap; [by rewrite length_fmap|].
  intros i k Hk. rewrite placeholders_assignment.
  apply list_elem_of_fmap in Hk as ([k' v] & -> & Hin).
  simpl. by rewrite (Hcols k' v Hin).
Qed.

Lemma placeholders_app (s1 s2 : string) :
  placeholders (s1 +:+ s2) = placeholders s1 + placeholders s2.
Proof. apply count_char_app. Qed.

Lemma placeholders_string_of_nat n : placeholders (string_of_nat n) = 0.
Proof. apply count_dollar_string_of_uint. Qed.

(** X4: The values of an update never reach the SQL text: two update sets with
    the same field names, in the same order, give the same assignment
    clause under the same name table, whatever their values. *)
Theorem sqlForPartialUpdate_values_apart
    (data data' : list (string * jsval)) (jsToSql : gmap string string)
    (r r' : partial_update) :
  sqlForPartialUpdate data jsToSql = Ok r ->
  sqlForPartialUpdate data' jsToSql = Ok r' ->
  fst <$> data = fst <$> data' ->
  setCols r = setCols r'.
Proof.
  intros Hr Hr' Hkeys.
  assert (data <> []) as Hne by (intros ->; discriminate Hr).
  assert (data' <> []) as Hne' by (intros ->; discriminate Hr').
  rewrite (sqlForPartialUpdate_Ok _ _ Hne) in Hr. injection Hr as <-.
  rewrite (sqlForPartialUpdate_Ok _ _ Hne') in Hr'. injection Hr' as <-.
  cbn [setCols]. by rewrite Hkeys.
Qed.

Lemma sqlForPartialUpdate_values_apart_witness :
  exists r r',
    sqlForPartialUpdate [("title", JStr "a"); ("salary", JNum 1)] ∅ = Ok r
    /\ sqlForPartialUpdate [("title", JStr "b"); ("salary", JNum 2)] ∅ = Ok r'
    /\ setCols r = setCols r'.
Proof.
  eexists _, _. split; [reflexivity|]. split; [reflexivity|].
  apply (sqlForPartialUpdate_values_apart
           [("title", JStr "a"); ("salary", JNum 1)]
           [("title", JStr "b"); ("salary", JNum 2)] ∅);
    reflexivity.
Defined.

(** X5: [Job.update] and [Technology.update] refuse an empty update set before
    sending anything; otherwise the parameters are the values followed by
    the id, and the WHERE clause addresses the id by the number of its
    position, one past the last value.  With column names free of dollar
    signs the statement holds exactly as many placeholders as there are
    parameters. *)
Theorem update_statement_parameters (id : jsval) (data : list (string * jsval)) :
  (data = [] ->
     Job.update_statement id data = Throw (BadRequestError "No data")
     /\ Technology.update_statement id data = Throw (BadRequestError "No data"))
  /\ (data <> [] ->
      exists jobCols techCols,
        let params := (snd <$> data) ++ [id] in
        Job.update_statement id data
        = Ok ("UPDATE jobs SET " +:+ jobCols +:+ " WHERE id = $"
              +:+ string_of_nat (length params)
              +:+ " RETURNING id, title, salary, equity, company_handle AS "
              +:+ dquote +:+ "companyHandle" +:+ dquote,
              params)
        /\ Technology.update_statement id data
           = Ok ("UPDATE technologies SET " +:+ techCols +:+ " WHERE id = $"
                 +:+ string_of_nat (length params) +:+ " RETURNING id, name",
                 params)
        /\ params !! (length params - 1) = Some id
        /\ ((forall k v, (k, v) ∈ data ->
               placeholders
                 (column_of {[ "companyHandle" := "company_handle" ]} k) = 0) ->
            placeholders jobCols + 1 = length params)
        /\ ((forall k v, (k, v) ∈ data -> placeholders k = 0) ->
            placeholders techCols + 1 = length params)).
Proof.
  split.
  - by intros ->.
  - intros Hne. unfold Job.update_statement, Technology.update_statement.
    rewrite !(sqlForPartialUpdate_Ok _ _ Hne). cbn [setCols values].
    eexists _, _. cbv zeta.
    assert (length ((snd <$> data) ++ [id]) = length data + 1) as Hlen.
    { by rewrite length_app, length_fmap. }
    rewrite Hlen, length_fmap.
    split; [reflexivity|]. split; [reflexivity|]. split; [|split].
    + replace (length data + 1 - 1) with (length (snd <$> data))
        by (rewrite length_fmap; lia).
      by rewrite lookup_app_r, Nat.sub_diag by lia.
    + intros Hcols. by rewrite placeholders_setCols.
    + intros Hcols. rewrite placeholders_setCols; [done|].
      intros k v Hin. rewrite column_of_absent by apply lookup_empty. eauto.
Qed.

Lemma update_statement_parameters_witness :
  exists jobCols,
    Job.update_statement (JNum 7) [("title", JStr "New"); ("salary", JNum 10)]
    = Ok ("UPDATE jobs SET " +:+ jobCols +:+ " WHERE id = $3"
          +:+ " RETURNING id, title, salary, equity, company_handle AS "
          +:+ dquote +:+ "companyHandle" +:+ dquote,
          [JStr "New"; JNum 10; JNum 7]).
Proof.
  destruct (proj2 (update_statement_parameters (JNum 7)
                     [("title", JStr "New"); ("salary", JNum 10)]))
    as (jobCols & techCols & Hjob & _); [discriminate|].
  exists jobCols. exact Hjob.
Defined.

Example Job_update_statement_title :
  Job.update_statement (JNum 7) [("title", JStr "New")]
  = Ok ("UPDATE jobs SET " +:+ dquote +:+ "title" +:+ dquote
        +:+ "=$1 WHERE id = $2"
        +:+ " RETURNING id, title, salary, equity, company_handle AS "
        +:+ dquote +:+ "companyHandle" +:+ dquote,
        [JStr "New"; JNum 7]).
Proof. vm_compute. reflexivity. Qed.

(** ** Searching *)

(** X6: In every search the compiled WHERE clause holds exactly as many
    placeholders as parameters are sent with it, for jobs and for
    technologies; so does the whole query text. *)
Theorem findAll_placeholders_parameters (searchFilter : gmap string jsval) :
  placeholders (Job.findAll_sql (where_of (Job.findAll_filters searchFilter).1))
  = length (Job.findAll_filters searchFilter).2
  /\ placeholders
       (Technology.findAll_sql (where_of (Technology.findAll_filters searchFilter).1))
     = length (Technology.findAll_filters searchFilter).2.
Proof.
  unfold Job.findAll_filters, Technology.findAll_filters.
  destruct (truthy (prop searchFilter "title"));
    destruct (truthy (prop searchFilter "minSalary"));
    destruct (truthy (prop searchFilter "hasEquity"));
    destruct (truthy (prop searchFilter "name"));
    split; vm_compute; reflexivity.
Qed.

(** X7: The searched values never reach the SQL text: two job filters that
    supply the same keys (with values passing [if (v)]) compile to the same
    query text, and likewise for technologies. *)
Theorem findAll_sql_from_keys (searchFilter searchFilter' : gmap string jsval) :
  (truthy (prop searchFilter "title") = truthy (prop searchFilter' "title") ->
   truthy (prop searchFilter "minSalary") = truthy (prop searchFilter' "minSalary") ->
   truthy (prop searchFilter "hasEquity") = truthy (prop searchFilter' "hasEquity") ->
   Job.findAll_sql (where_of (Job.findAll_filters searchFilter).1)
   = Job.findAll_sql (where_of (Job.findAll_filters searchFilter').1))
  /\ (truthy (prop searchFilter "name") = truthy (prop searchFilter' "name") ->
      Technology.findAll_sql (where_of (Technology.findAll_filters searchFilter).1)
      = Technology.findAll_sql (where_of (Technology.findAll_filters searchFilter').1)).
Proof.
  unfold Job.findAll_filters, Technology.findAll_filters. split.
  - intros <- <- <-.
    destruct (truthy (prop searchFilter "title"));
      destruct (truthy (prop searchFilter "minSalary"));
      destruct (truthy (prop searchFilter "hasEquity")); reflexivity.
  - intros <-. destruct (truthy (prop searchFilter "name")); reflexivity.
Qed.

Lemma findAll_sql_from_keys_witness :
  Job.findAll_sql (where_of (Job.findAll_filters {[ "title" := JStr "net" ]}).1)
  = Job.findAll_sql
      (where_of (Job.findAll_filters
                   {[ "title" := JStr "x' OR 1=1 --"; "minSalary" := JNum 0 ]}).1).
Proof.
  apply (proj1 (findAll_sql_from_keys
                  {[ "title" := JStr "net" ]}
                  {[ "title" := JStr "x' OR 1=1 --"; "minSalary" := JNum 0 ]}));
    reflexivity.
Defined.

(** X8: A filter whose values all fail [if (v)] (an empty title, a minimum
    salary of 0, hasEquity false, or keys the search does not read) is no
    filter at all: the same query is sent and the same rows come back as
    for the empty filter. *)
Theorem findAll_falsy_filter
    (where_holds : string -> list jsval -> Job.listed -> bool)
    (tech_holds : string -> list jsval -> Technology.listed -> bool)
    (searchFilter : gmap string jsval) (w : world) :
  (truthy (prop searchFilter "title") = false ->
   truthy (prop searchFilter "minSalary") = false ->
   truthy (prop searchFilter "hasEquity") = false ->
   Job.findAll where_holds searchFilter w = Job.findAll where_holds ∅ w)
  /\ (truthy (prop searchFilter "name") = false ->
      Technology.findAll tech_holds searchFilter w
      = Technology.findAll tech_holds ∅ w).
Proof.
  unfold Job.findAll, Job.findAll_filters,
    Technology.findAll, Technology.findAll_filters.
  split.
  - by intros -> -> ->.
  - by intros ->.
Qed.

Lemma findAll_falsy_filter_witness :
  Job.findAll (fun _ _ _ => false)
    {[ "title" := JStr empty_str; "minSalary" := JNum 0;
       "hasEquity" := JBool false ]} sample_world
  = Job.findAll (fun _ _ _ => false) ∅ sample_world.
Proof.
  apply (proj1 (findAll_falsy_filter (fun _ _ _ => false) (fun _ _ _ => false)
                  {[ "title" := JStr empty_str; "minSalary" := JNum 0;
                     "hasEquity" := JBool false ]} sample_world));
    reflexivity.
Defined.


(** ** Looking a job up *)

Lemma select_requirements_techId d id t :
  t ∈ Job.techId <$> Job.select_requirements id d
  <-> (id, t) ∈ requirements d /\ technology_exists d t.
Proof.
  unfold Job.select_requirements. rewrite list_elem_of_fmap. split.
  - intros (x & -> & Hx).
    apply list_elem_of_In, in_flat_map in Hx as ([j' t'] & Hr & Hx).
    apply list_elem_of_In, list_elem_of_filter in Hr as [Hj Hr].
    apply list_elem_of_In, list_elem_of_fmap in Hx as (tech & -> & Htech).
    apply list_elem_of_filter in Htech as [Hid Htech].
    simpl in *. subst. split; [done|]. by exists tech.
  - intros [Hr (tech & Htech & Hid)].
    exists {| Job.techId := t; Job.techName := technology_name tech |}.
    split; [done|].
    apply list_elem_of_In, in_flat_map. exists (id, t). split.
    + apply list_elem_of_In, list_elem_of_filter. by split.
    + apply list_elem_of_In, list_elem_of_fmap. exists tech. split; [done|].
      apply list_elem_of_filter. by split.
Qed.

Lemma Job_get_missing id w :
  ~ job_exists (store w) id ->
  Job.get id w
  = (Throw (NotFoundError ("No job: " +:+ string_of_Z id)),
     after w (store w) [SelectJob id]).
Proof.
  intros Hno. unfold Job.get, bind, db_select, throw, ret. cbn [store log].
  destruct (first_row _) as [j|] eqn:Hj; [|done].
  apply first_row_filter_Some in Hj as [Hin Hid].
  exfalso. apply Hno. by exists j.
Qed.

Lemma Job_get_Ok id w job :
  (Job.get id w).1 = Ok job ->
  job_exists (store w) id
  /\ Job.detail_id job = id
  /\ Job.detail_requirements job = Job.select_requirements id (store w)
  /\ exists j, j ∈ jobs (store w) /\ job_id j = id
       /\ Job.detail_title job = job_title j
       /\ Job.detail_salary job = job_salary j
       /\ Job.detail_equity job = job_equity j
       /\ (forall c, Job.detail_company job = Some c ->
             c ∈ companies (store w) /\ company_handle c = job_company_handle j)
       /\ (Job.detail_company job = None ->
             forall c, c ∈ companies (store w) ->
                       company_handle c <> job_company_handle j).
Proof.
  unfold Job.get, bind, db_select, throw, ret. cbn [store log].
  destruct (first_row (filter _ (jobs (store w)))) as [j|] eqn:Hj; [|done].
  apply first_row_filter_Some in Hj as [Hin Hid].
  cbn [fst]. intros [= <-]. cbn.
  split; [by exists j|]. split; [done|]. split; [done|].
  exists j. repeat (split; [done|]). split.
  - intros c Hc. by apply first_row_filter_Some in Hc.
  - intros Hnone c Hc. by eapply first_row_filter_None in Hnone.
Qed.

(** X10: [Job.get] answers with a job exactly when a job with the id exists, and
    then with that id, the columns of a stored row of that id and a company
    of that row's handle (none only if no company has the handle);
    otherwise it throws NotFoundError naming the id, after the single
    lookup of the job.  It never changes the store. *)
Theorem Job_get_outcome (id : Z) (w : world) :
  store (Job.get id w).2 = store w
  /\ (job_exists (store w) id <-> exists job, (Job.get id w).1 = Ok job)
  /\ (~ job_exists (store w) id ->
      Job.get id w
      = (Throw (NotFoundError ("No job: " +:+ string_of_Z id)),
         after w (store w) [SelectJob id]))
  /\ (forall job, (Job.get id w).1 = Ok job ->
      Job.detail_id job = id
      /\ exists j, j ∈ jobs (store w) /\ job_id j = id
           /\ Job.detail_title job = job_title j
           /\ Job.detail_salary job = job_salary j
           /\ Job.detail_equity job = job_equity j
           /\ (forall c, Job.detail_company job = Some c ->
                 c ∈ companies (store w)
                 /\ company_handle c = job_company_handle j)
           /\ (Job.detail_company job = None ->
                 forall c, c ∈ companies (store w) ->
                           company_handle c <> job_company_handle j)).
Proof.
  split; [apply Job_get_store|]. split; [|split].
  - split.
    + intros Hex. destruct (Job_get_found id w Hex) as (job & w' & Hget & _).
      exists job. by rewrite Hget.
    + intros [job Hjob]. by apply Job_get_Ok in Hjob as [? _].
  - apply Job_get_missing.
  - intros job Hjob. apply Job_get_Ok in Hjob as (_ & Hid & _ & Hrow). by split.
Qed.

Lemma Job_get_outcome_witness :
  Job.get 9 sample_world
  = (Throw (NotFoundError "No job: 9"), after sample_world sample_db [SelectJob 9]).
Proof.
  destruct (Job_get_outcome 9 sample_world) as (_ & _ & Hmissing & _).
  apply Hmissing. intros (j & Hin & Hid).
  repeat (apply elem_of_cons in Hin as [-> | Hin]; [discriminate Hid|]).
  by apply not_elem_of_nil in Hin.
Defined.

(** X11: The requirements [Job.get] lists are exactly the technologies that are
    recorded as required for the job and that exist: a requirement row
    whose technology is gone is not listed. *)
Theorem Job_get_requirements (id : Z) (w : world) (job : Job.detail) :
  (Job.get id w).1 = Ok job ->
  forall t, t ∈ Job.techId <$> Job.detail_requirements job
            <-> (id, t) ∈ requirements (store w) /\ technology_exists (store w) t.
Proof.
  intros Hjob t. apply Job_get_Ok in Hjob as (_ & _ & -> & _).
  apply select_requirements_techId.
Qed.

Lemma Job_get_requirements_witness :
  10%Z ∈ [10; 11]%Z
  <-> (1, 10)%Z ∈ requirements sample_db /\ technology_exists sample_db 10.
Proof.
  exact (Job_get_requirements 1 sample_world
           {| Job.detail_id := 1; Job.detail_title := "J1";
              Job.detail_salary := Some 1%Z; Job.detail_equity := Some "0.1";
              Job.detail_company :=
                Some {| company_handle := "c1"; company_name := "C1";
                        company_description := "Desc1";
                        company_num_employees := Some 1%Z;
                        company_logo_url := Some "http://c1.img" |};
              Job.detail_requirements :=
                [ {| Job.techId := 10; Job.techName := "tech1" |};
                  {| Job.techId := 11; Job.techName := "tech2" |} ] |}
           eq_refl 10%Z).
Defined.

(** ** Requiring a technology, then looking *)

Lemma requireTech_Ok jobId techId w r w1 :
  Job.requireTech jobId techId w = (Ok r, w1) ->
  job_exists (store w) jobId
  /\ technology_exists (store w) techId
  /\ ((jobId, techId) ∉ requirements (store w))
  /\ r = Some (jobId, techId)
  /\ store w1 = with_requirement (store w) jobId techId.
Proof.
  intros Hrun.
  destruct (requireTech_cases jobId techId w)
    as [(_ & H) | [(_ & _ & H) | [(_ & _ & _ & H) | (Hj & Ht & Hr & H)]]];
    rewrite H in Hrun; try discriminate Hrun.
  injection Hrun as <- <-. by repeat split.
Qed.

Lemma select_requirements_other d jobId techId id :
  id <> jobId ->
  Job.select_requirements id (with_requirement d jobId techId)
  = Job.select_requirements id d.
Proof.
  intros Hne. unfold Job.select_requirements, with_requirement.
  cbn [requirements technologies].
  rewrite filter_app, filter_cons, filter_nil.
  rewrite decide_False by (simpl; congruence).
  by rewrite app_nil_r.
Qed.

(** X12: After [requireTech] has succeeded, [Job.get] of that job lists the new
    technology next to the requirements listed before, and nothing else. *)
Theorem requireTech_then_get (jobId techId : Z) (w w1 : world)
    (r : option (Z * Z)) :
  Job.requireTech jobId techId w = (Ok r, w1) ->
  exists job,
    (Job.get jobId w1).1 = Ok job
    /\ techId ∈ Job.techId <$> Job.detail_requirements job
    /\ (forall t, t ∈ Job.techId <$> Job.detail_requirements job
          <-> t = techId
              \/ t ∈ Job.techId <$> Job.select_requirements jobId (store w)).
Proof.
  intros Hrun.
  apply requireTech_Ok in Hrun as (Hj & Ht & Hr & _ & Hstore).
  assert (job_exists (store w1) jobId) as Hj1 by (by rewrite Hstore).
  destruct (Job_get_found jobId w1 Hj1) as (job & w2 & Hget & _ & _ & Hreqs).
  exists job. rewrite Hget. split; [done|].
  rewrite Hreqs, Hstore.
  assert (forall t,
            t ∈ Job.techId <$>
                Job.select_requirements jobId (with_requirement (store w) jobId techId)
            <-> t = techId
                \/ t ∈ Job.techId <$> Job.select_requirements jobId (store w)) as Hall.
  { intros t. rewrite !select_requirements_techId.
    unfold with_requirement at 1. cbn [requirements].
    rewrite elem_of_app, list_elem_of_singleton. split.
    - intros [[Hin | [= ->]] Hex]; [right; by split | by left].
    - intros [-> | [Hin Hex]]; split; auto. }
  split; [|exact Hall]. apply Hall. by left.
Qed.

Lemma requireTech_then_get_witness :
  exists job,
    (Job.get 1 (after sample_world (with_requirement sample_db 1 12)
                  [SelectJobId 1; SelectTechnologyId 12; SelectRequirement 1 12;
                   InsertRequirement 1 12])).1 = Ok job
    /\ 12%Z ∈ Job.techId <$> Job.detail_requirements job.
Proof.
  destruct (requireTech_then_get 1 12 sample_world _ _ eq_refl)
    as (job & Hget & Hin & _).
  by exists job.
Defined.

(** X13: [requireTech] does not succeed twice: repeated on the world its success
    left, it throws BadRequestError and changes nothing. *)
Theorem requireTech_twice (jobId techId : Z) (w w1 : world) (r : option (Z * Z)) :
  Job.requireTech jobId techId w = (Ok r, w1) ->
  (Job.requireTech jobId techId w1).1
  = Throw (BadRequestError "Duplicate tech requirement.")
  /\ store (Job.requireTech jobId techId w1).2 = store w1.
Proof.
  intros Hrun.
  apply requireTech_Ok in Hrun as (Hj & Ht & Hr & _ & Hstore).
  assert (job_exists (store w1) jobId) as Hj1 by (by rewrite Hstore).
  assert (technology_exists (store w1) techId) as Ht1 by (by rewrite Hstore).
  assert ((jobId, techId) ∈ requirements (store w1)) as Hr1.
  { rewrite Hstore. cbn. apply elem_of_app. right. by left. }
  destruct (requireTech_cases jobId techId w1)
    as [(Hno & _) | [(_ & Hno & _) | [(_ & _ & _ & ->) | (_ & _ & Hno & _)]]];
    done.
Qed.

Lemma requireTech_twice_witness :
  (Job.requireTech 1 12
     (after sample_world (with_requirement sample_db 1 12)
        [SelectJobId 1; SelectTechnologyId 12; SelectRequirement 1 12;
         InsertRequirement 1 12])).1
  = Throw (BadRequestError "Duplicate tech requirement.").
Proof.
  exact (proj1 (requireTech_twice 1 12 sample_world _ _ eq_refl)).
Defined.

(** X14: A new requirement concerns one job only and can only cost it matches:
    the listing and every other job's requirements are as before, no
    posting becomes matched that was not, and a user lacking the new
    technology no longer matches the job. *)
Theorem requireTech_matches (jobId techId : Z) (w w1 : world) (r : option (Z * Z)) :
  Job.requireTech jobId techId w = (Ok r, w1) ->
  Job.joined (store w1) = Job.joined (store w)
  /\ (forall id, id <> jobId ->
        Job.select_requirements id (store w1) = Job.select_requirements id (store w))
  /\ (forall skills j,
        matches (store w1) skills j = true -> matches (store w) skills j = true)
  /\ (forall skills j,
        Job.listed_id j = jobId -> techId ∉ skills ->
        matches (store w1) skills j = false).
Proof.
  intros Hrun.
  apply requireTech_Ok in Hrun as (Hj & Ht & Hr & _ & Hstore).
  rewrite Hstore. split; [done|]. split; [|split].
  - intros id Hne. by apply select_requirements_other.
  - intros skills j. unfold matches.
    destruct (decide (Job.listed_id j = jobId)) as [Heq|Hne].
    + intros Hm. eapply isSubset_weaken; [exact Hm| |done].
      intros t. rewrite !select_requirements_techId. rewrite Heq.
      unfold with_requirement at 1. cbn [requirements].
      intros [Hin Hex]. split; [|done]. apply elem_of_app. by left.
    + by rewrite select_requirements_other.
  - intros skills j Heq Hlack. unfold matches.
    destruct (isSubset _ skills) eqn:Hm; [|done].
    apply isSubset_true in Hm as [_ Hall]. exfalso. apply Hlack, Hall.
    apply select_requirements_techId. rewrite Heq. split; [|done].
    cbn. apply elem_of_app. right. by left.
Qed.

Lemma requireTech_matches_witness :
  matches (with_requirement sample_db 1 12) [10; 11]%Z
    {| Job.listed_id := 1; Job.listed_title := "J1";
       Job.listed_salary := Some 1%Z; Job.listed_equity := Some "0.1";
       Job.listed_companyHandle := "c1"; Job.listed_companyName := Some "C1" |}
  = false.
Proof.
  destruct (requireTech_matches 1 12 sample_world
              (after sample_world (with_requirement sample_db 1 12)
                 [SelectJobId 1; SelectTechnologyId 12; SelectRequirement 1 12;
                  InsertRequirement 1 12])
              (Some (1, 12)%Z) eq_refl)
    as (_ & _ & _ & Hlost).
  apply Hlost; [reflexivity|].
  intros Hin.
  repeat (apply elem_of_cons in Hin as [Heq | Hin]; [discriminate Heq|]).
  by apply not_elem_of_nil in Hin.
Defined.

(** ** Filtering rows *)

Section FilterFacts.
Context {A : Type} (P Q : A -> Prop)
  `{forall x, Decision (P x)} `{forall x, Decision (Q x)}.

Lemma filter_keep_all (rows : list A) :
  (forall x, x ∈ rows -> P x) -> filter P rows = rows.
Proof.
  induction rows as [|r rows IH]; intros Hall; [done|].
  rewrite filter_cons, decide_True by (apply Hall; by left).
  f_equal. apply IH. intros x Hx. apply Hall. by right.
Qed.

Lemma filter_drop_all (rows : list A) :
  (forall x, x ∈ rows -> ~ P x) -> filter P rows = [].
Proof.
  induction rows as [|r rows IH]; intros Hall; [done|].
  rewrite filter_cons, decide_False by (apply Hall; by left).
  apply IH. intros x Hx. apply Hall. by right.
Qed.

Lemma filter_filter_frame (rows : list A) :
  (forall x, x ∈ rows -> P x -> Q x) ->
  filter P (filter Q rows) = filter P rows.
Proof.
  induction rows as [|r rows IH]; intros Himp; [done|].
  assert (filter P (filter Q rows) = filter P rows) as IH'.
  { apply IH. intros x Hx. apply Himp. by right. }
  rewrite (filter_cons Q). destruct (decide (Q r)) as [HQ|HQ].
  - rewrite !filter_cons. destruct (decide (P r)); by rewrite IH'.
  - rewrite filter_cons, IH'. destruct (decide (P r)) as [HP|HP]; [|done].
    exfalso. apply HQ, Himp; [by left|done].
Qed.
End FilterFacts.

(** ** Creating and reading technologies *)

Lemma Technology_get_run id w :
  Technology.get id w
  = (match first_row (Technology.to_listed <$>
                      filter (fun t => technology_id t = id)
                             (technologies (store w))) with
     | Some tech => Ok tech
     | None => Throw (NotFoundError ("No technology: " +:+ string_of_Z id))
     end,
     after w (store w)
       [SelectTechnologies "SELECT id, name FROM technologies WHERE id = $1"
          [JNum id]]).
Proof.
  unfold Technology.get, bind, db_select, throw, ret, after. cbn [store log].
  by destruct (first_row _).
Qed.

(** X15: [Technology.get] answers with a technology exactly when one with the id
    exists, and then with a stored row of that id; otherwise it throws
    NotFoundError naming the id.  It issues one query and never changes the
    store. *)
Theorem Technology_get_outcome (id : Z) (w : world) :
  store (Technology.get id w).2 = store w
  /\ (technology_exists (store w) id
      <-> exists tech, (Technology.get id w).1 = Ok tech)
  /\ (~ technology_exists (store w) id ->
      (Technology.get id w).1
      = Throw (NotFoundError ("No technology: " +:+ string_of_Z id)))
  /\ (forall tech, (Technology.get id w).1 = Ok tech ->
      Technology.listed_id tech = id
      /\ exists t, t ∈ technologies (store w) /\ Technology.to_listed t = tech).
Proof.
  rewrite Technology_get_run. cbn [fst snd after store].
  rewrite first_row_fmap.
  destruct (first_row (filter _ (technologies (store w)))) as [t|] eqn:Ht; cbn.
  - apply first_row_filter_Some in Ht as [Hin Hid].
    split; [done|]. split; [|split].
    + split; [by eauto|]. intros _. by exists t.
    + intros Hno. exfalso. apply Hno. by exists t.
    + intros tech [= <-]. split; [done|]. by exists t.
  - split; [done|]. split; [|split]; [| done | done].
    split; [|by intros [? ?]].
    intros (t & Hin & Hid). exfalso.
    by eapply (first_row_filter_None (fun t => technology_id t = id)) in Ht.
Qed.

Lemma Technology_get_outcome_witness :
  (Technology.get 0 sample_world).1
  = Throw (NotFoundError "No technology: 0").
Proof.
  destruct (Technology_get_outcome 0 sample_world) as (_ & _ & Hmissing & _).
  apply Hmissing. intros (t & Hin & Hid).
  repeat (apply elem_of_cons in Hin as [-> | Hin]; [discriminate Hid|]).
  by apply not_elem_of_nil in Hin.
Defined.

Section TechnologySequence.
Variable next_id : db -> Z.

Lemma Technology_create_run name d :
  ((exists t, t ∈ technologies d /\ technology_name t = name)
   /\ Technology.create next_id name d
      = (Throw (BadRequestError ("Duplicate technology: " +:+ name)), d))
  \/ ((forall t, t ∈ technologies d -> technology_name t <> name)
      /\ Technology.create next_id name d
         = (Ok (Some {| Technology.listed_id := next_id d;
                        Technology.listed_name := name |}),
            {| jobs := jobs d; companies := companies d;
               technologies :=
                 technologies d
                 ++ [{| technology_id := next_id d; technology_name := name |}];
               requirements := requirements d;
               users := users d; users_techs := users_techs d |})).
Proof.
  unfold Technology.create.
  destruct (first_row (filter _ (technologies d))) as [t|] eqn:Ht.
  - left. apply first_row_filter_Some in Ht as [Hin Hname]. split; [|done].
    by exists t.
  - right. split; [|done]. intros t Hin.
    by eapply (first_row_filter_None (fun t => technology_name t = name)) in Ht.
Qed.

(** X16: [Technology.create] refuses a name that is already stored, with
    BadRequestError and the store untouched; any other name is stored under
    the identifier the sequence hands out, after the rows already there.
    Hence names that were unique stay unique. *)
Theorem Technology_create_unique (name : string) (d : db) :
  ((exists t, t ∈ technologies d /\ technology_name t = name) ->
     Technology.create next_id name d
     = (Throw (BadRequestError ("Duplicate technology: " +:+ name)), d))
  /\ ((forall t, t ∈ technologies d -> technology_name t <> name) ->
      (Technology.create next_id name d).1
      = Ok (Some {| Technology.listed_id := next_id d;
                    Technology.listed_name := name |})
      /\ technologies (Technology.create next_id name d).2
         = technologies d
           ++ [{| technology_id := next_id d; technology_name := name |}])
  /\ (NoDup (technology_name <$> technologies d) ->
      NoDup (technology_name <$> technologies (Technology.create next_id name d).2)).
Proof.
  destruct (Technology_create_run name d) as [[Hdup ->] | [Hnew ->]]; cbn.
  - split; [done|]. split; [|done].
    intros Hnone. destruct Hdup as (t & Hin & Hname). by destruct (Hnone t Hin).
  - split; [|split; [done|]].
    + intros (t & Hin & Hname). by destruct (Hnew t Hin).
    + intros Hnd. rewrite fmap_app. apply NoDup_app. split; [done|]. split.
      * intros n Hn Hn'. apply list_elem_of_singleton in Hn' as ->.
        apply list_elem_of_fmap in Hn as (t & Hname & Hin).
        by destruct (Hnew t Hin).
      * apply NoDup_singleton.
Qed.

(** X17: What was created can be read back: if the identifier handed out is not
    already in use, [Technology.get] of the created row's id answers with
    that row; and whatever [Technology.get] answered before the creation,
    it answers after it. *)
Theorem Technology_create_then_get (name : string) (d d' : db)
    (tech : Technology.listed) :
  Technology.create next_id name d = (Ok (Some tech), d') ->
  ((forall t, t ∈ technologies d -> technology_id t <> next_id d) ->
     forall l, (Technology.get (Technology.listed_id tech)
                  {| store := d'; log := l |}).1 = Ok tech)
  /\ (forall id old l,
        (Technology.get id {| store := d; log := l |}).1 = Ok old ->
        (Technology.get id {| store := d'; log := l |}).1 = Ok old).
Proof.
  intros Hrun.
  destruct (Technology_create_run name d) as [[_ H] | [_ H]];
    rewrite H in Hrun; [discriminate Hrun|].
  injection Hrun as <- <-. split.
  - intros Hfresh l. rewrite Technology_get_run. cbn [fst store technologies].
    rewrite filter_app, filter_cons, filter_nil.
    rewrite decide_True by done.
    rewrite (filter_drop_all (fun t => technology_id t = next_id d)); [done|].
    intros t Hin Hid. by destruct (Hfresh t Hin).
  - intros id old l. rewrite !Technology_get_run. cbn [fst store technologies].
    rewrite filter_app, fmap_app.
    destruct (filter _ (technologies d)) as [|t ts]; [done|]. done.
Qed.
End TechnologySequence.

Lemma Technology_create_unique_witness :
  Technology.create (fun _ => 13%Z) "tech1" sample_db
  = (Throw (BadRequestError "Duplicate technology: tech1"), sample_db).
Proof.
  apply (proj1 (Technology_create_unique (fun _ => 13%Z) "tech1" sample_db)).
  eexists. split; [apply list_elem_of_here | reflexivity].
Defined.

Lemma Technology_create_then_get_witness :
  (Technology.get 13
     {| store := (Technology.create (fun _ => 13%Z) "tech4" sample_db).2;
        log := [] |}).1
  = Ok {| Technology.listed_id := 13; Technology.listed_name := "tech4" |}.
Proof.
  apply (proj1 (Technology_create_then_get (fun _ => 13%Z) "tech4" sample_db _
                  {| Technology.listed_id := 13; Technology.listed_name := "tech4" |}
                  eq_refl)).
  intros t Hin Hid.
  repeat (apply elem_of_cons in Hin as [-> | Hin]; [discriminate Hid|]).
  by apply not_elem_of_nil in Hin.
Defined.

(** ** Removing jobs and technologies *)

Lemma Job_get_ext id w w' :
  filter (fun j => job_id j = id) (jobs (store w))
  = filter (fun j => job_id j = id) (jobs (store w')) ->
  companies (store w) = companies (store w') ->
  Job.select_requirements id (store w) = Job.select_requirements id (store w') ->
  (Job.get id w).1 = (Job.get id w').1.
Proof.
  intros Hjobs Hcompanies Hreqs.
  unfold Job.get, bind, db_select, throw, ret. cbn [store log].
  rewrite Hjobs. destruct (first_row _) as [job|]; [|done].
  cbn [fst store]. by rewrite Hcompanies, Hreqs.
Qed.

Lemma select_techSkills_techId d name t :
  t ∈ Job.techId <$> User.select_techSkills name d
  <-> (name, t) ∈ users_techs d /\ technology_exists d t.
Proof.
  unfold User.select_techSkills. rewrite list_elem_of_fmap. split.
  - intros (x & -> & Hx).
    apply list_elem_of_In, in_flat_map in Hx as ([n' t'] & Hr & Hx).
    apply list_elem_of_In, list_elem_of_filter in Hr as [Hn Hr].
    apply list_elem_of_In, list_elem_of_fmap in Hx as (tech & -> & Htech).
    apply list_elem_of_filter in Htech as [Hid Htech].
    simpl in *. subst. split; [done|]. by exists tech.
  - intros [Hr (tech & Htech & Hid)].
    exists {| Job.techId := t; Job.techName := technology_name tech |}.
    split; [done|].
    apply list_elem_of_In, in_flat_map. exists (name, t). split.
    + apply list_elem_of_In, list_elem_of_filter. by split.
    + apply list_elem_of_In, list_elem_of_fmap. exists tech. split; [done|].
      apply list_elem_of_filter. by split.
Qed.

Section RemoveFacts.
Variable cascade : bool.

Lemma deleted_jobs_id id d x :
  x ∈ (Job.delete_job cascade id d).1 -> x = id.
Proof.
  cbn. intros Hx. apply list_elem_of_fmap in Hx as (j & -> & Hj).
  by apply list_elem_of_filter in Hj as [? _].
Qed.

Lemma deleted_technologies_id id d x :
  x ∈ (Technology.delete_technology cascade id d).1 -> x = id.
Proof.
  cbn. intros Hx. apply list_elem_of_fmap in Hx as (t & -> & Ht).
  by apply list_elem_of_filter in Ht as [? _].
Qed.

Lemma Job_remove_missing id d :
  ~ job_exists d id ->
  Job.remove cascade id d
  = (Throw (NotFoundError ("No job: " +:+ string_of_Z id)), d).
Proof.
  intros Hno.
  assert (forall j, j ∈ jobs d -> job_id j <> id) as Hall.
  { intros j Hin Hid. apply Hno. by exists j. }
  unfold Job.remove, Job.delete_job.
  rewrite (filter_drop_all (fun j => job_id j = id)) by done.
  rewrite (filter_keep_all (fun j => job_id j <> id)) by done.
  cbn [fmap list_fmap first_row head].
  rewrite (filter_keep_all (fun r : Z * Z => r.1 ∉ [])).
  2:{ intros r _. apply not_elem_of_nil. }
  destruct d, cascade; reflexivity.
Qed.

Lemma Job_remove_found id d :
  job_exists d id ->
  Job.remove cascade id d = (Ok tt, (Job.delete_job cascade id d).2).
Proof.
  intros (j & Hin & Hid). unfold Job.remove.
  destruct (Job.delete_job cascade id d) as [result d'] eqn:Hdel.
  unfold Job.delete_job in Hdel. injection Hdel as <- <-.
  rewrite first_row_fmap.
  destruct (first_row_filter_is_Some (fun j => job_id j = id) (jobs d) j Hin Hid)
    as [y ->].
  reflexivity.
Qed.

(** X18: [Job.remove] of an id no job has throws NotFoundError and leaves the
    store exactly as it was; of an id some job has, it succeeds and no job
    has the id afterwards.  Either way, what [Job.get] answers for any
    other id is not affected. *)
Theorem Job_remove_outcome (id : Z) (d : db) :
  (~ job_exists d id ->
     Job.remove cascade id d
     = (Throw (NotFoundError ("No job: " +:+ string_of_Z id)), d))
  /\ (job_exists d id ->
      (Job.remove cascade id d).1 = Ok tt
      /\ ~ job_exists (Job.remove cascade id d).2 id)
  /\ (forall id' l, id' <> id ->
      (Job.get id' {| store := (Job.remove cascade id d).2; log := l |}).1
      = (Job.get id' {| store := d; log := l |}).1).
Proof.
  split; [apply Job_remove_missing|]. split.
  - intros Hex. rewrite (Job_remove_found _ _ Hex). split; [done|].
    cbn. intros (j & Hin & Hid).
    by apply list_elem_of_filter in Hin as [Hne _].
  - intros id' l Hne.
    assert ((Job.remove cascade id d).2 = (Job.delete_job cascade id d).2) as ->.
    { unfold Job.remove. destruct (Job.delete_job cascade id d) as [res d'].
      by destruct (first_row res). }
    apply Job_get_ext; cbn [store].
    + cbn. apply (filter_filter_frame (fun j => job_id j = id')).
      intros j _ Hid. congruence.
    + done.
    + unfold Job.select_requirements. cbn [snd Job.delete_job requirements technologies].
      destruct cascade; [|done].
      rewrite (filter_filter_frame (fun r : Z * Z => r.1 = id')); [done|].
      intros r _ Hr Hin. apply (deleted_jobs_id id d) in Hin. congruence.
Qed.

Lemma Technology_remove_missing id d :
  ~ technology_exists d id ->
  Technology.remove cascade id d
  = (Throw (NotFoundError ("No technology: " +:+ string_of_Z id)), d).
Proof.
  intros Hno.
  assert (forall t, t ∈ technologies d -> technology_id t <> id) as Hall.
  { intros t Hin Hid. apply Hno. by exists t. }
  unfold Technology.remove, Technology.delete_technology.
  rewrite (filter_drop_all (fun t => technology_id t = id)) by done.
  rewrite (filter_keep_all (fun t => technology_id t <> id)) by done.
  cbn [fmap list_fmap first_row head].
  rewrite (filter_keep_all (fun r : Z * Z => r.2 ∉ [])).
  2:{ intros r _. apply not_elem_of_nil. }
  rewrite (filter_keep_all (fun ut : string * Z => ut.2 ∉ [])).
  2:{ intros r _. apply not_elem_of_nil. }
  destruct d, cascade; reflexivity.
Qed.

Lemma Technology_remove_found id d :
  technology_exists d id ->
  Technology.remove cascade id d
  = (Ok tt, (Technology.delete_technology cascade id d).2).
Proof.
  intros (t & Hin & Hid). unfold Technology.remove.
  destruct (Technology.delete_technology cascade id d) as [result d'] eqn:Hdel.
  unfold Technology.delete_technology in Hdel. injection Hdel as <- <-.
  rewrite first_row_fmap.
  destruct (first_row_filter_is_Some
              (fun t => technology_id t = id) (technologies d) t Hin Hid)
    as [y ->].
  reflexivity.
Qed.

Lemma technology_exists_after_delete id d t :
  technology_exists (Technology.delete_technology cascade id d).2 t
  <-> t <> id /\ technology_exists d t.
Proof.
  cbn. split.
  - intros (x & Hin & Hid). apply list_elem_of_filter in Hin as [Hne Hin].
    split; [congruence|]. by exists x.
  - intros [Hne (x & Hin & Hid)]. exists x. split; [|done].
    apply list_elem_of_filter. split; [congruence|done].
Qed.

(** X19: [Technology.remove] of an id no technology has throws NotFoundError and
    leaves the store exactly as it was.  Once it has succeeded, no
    technology has the id, no job lists it as a requirement and no user as
    a skill, while every other requirement of every job is listed as
    before. *)
Theorem Technology_remove_outcome (id : Z) (d : db) :
  (~ technology_exists d id ->
     Technology.remove cascade id d
     = (Throw (NotFoundError ("No technology: " +:+ string_of_Z id)), d))
  /\ (technology_exists d id ->
      let d' := (Technology.remove cascade id d).2 in
      (Technology.remove cascade id d).1 = Ok tt
      /\ ~ technology_exists d' id
      /\ (forall jobId, id ∉ Job.techId <$> Job.select_requirements jobId d')
      /\ (forall name, id ∉ Job.techId <$> User.select_techSkills name d')
      /\ (forall jobId t, t <> id ->
            t ∈ Job.techId <$> Job.select_requirements jobId d'
            <-> t ∈ Job.techId <$> Job.select_requirements jobId d)).
Proof.
  split; [apply Technology_remove_missing|].
  intros Hex. rewrite (Technology_remove_found _ _ Hex). cbn [fst snd]. cbv zeta.
  split; [done|].
  assert (~ technology_exists (Technology.delete_technology cascade id d).2 id)
    as Hgone.
  { rewrite technology_exists_after_delete. by intros [? _]. }
  split; [done|]. split; [|split].
  - intros jobId. rewrite select_requirements_techId. by intros [_ ?].
  - intros name. rewrite select_techSkills_techId. by intros [_ ?].
  - intros jobId t Hne. rewrite !select_requirements_techId.
    rewrite technology_exists_after_delete.
    assert ((jobId, t) ∈ requirements (Technology.delete_technology cascade id d).2
            <-> (jobId, t) ∈ requirements d) as ->.
    { cbn. destruct cascade; [|done].
      rewrite list_elem_of_filter. split; [by intros [_ ?]|].
      intros Hin. split; [|done]. cbn. intros Hdel.
      apply (deleted_technologies_id id d) in Hdel. congruence. }
    tauto.
Qed.
End RemoveFacts.

Lemma Job_remove_outcome_witness :
  Job.remove true 9 sample_db
  = (Throw (NotFoundError "No job: 9"), sample_db).
Proof.
  apply (proj1 (Job_remove_outcome true 9 sample_db)).
  intros (j & Hin & Hid).
  repeat (apply elem_of_cons in Hin as [-> | Hin]; [discriminate Hid|]).
  by apply not_elem_of_nil in Hin.
Defined.

Lemma Technology_remove_outcome_witness :
  (Technology.remove false 12 sample_db).1 = Ok tt
  /\ 12%Z ∉ Job.techId <$>
            Job.select_requirements 2 (Technology.remove false 12 sample_db).2.
Proof.
  destruct (proj2 (Technology_remove_outcome false 12 sample_db))
    as (Hok & _ & Hreq & _).
  - eexists. split; [do 2 apply list_elem_of_further; apply list_elem_of_here|].
    reflexivity.
  - split; [exact Hok | apply Hreq].
Defined.

(** ** Recording a skill *)

Lemma user_exists_first_row d name :
  user_exists d name <->
  is_Some (first_row (user_username <$>
                      filter (fun u => user_username u = name) (users d))).
Proof.
  rewrite first_row_fmap, fmap_is_Some. split.
  - intros (u & Hin & Hname).
    destruct (first_row_filter_is_Some
                (fun u => user_username u = name) (users d) u Hin Hname)
      as [y Hy].
    by exists y.
  - intros [u Hu]. apply first_row_filter_Some in Hu as [Hin Hname]. by exists u.
Qed.

Lemma skill_first_row d name techId :
  (name, techId) ∈ users_techs d <->
  is_Some (first_row (filter (fun ut : string * Z => ut.1 = name /\ ut.2 = techId)
                             (users_techs d))).
Proof.
  split.
  - intros Hin.
    destruct (first_row_filter_is_Some
                (fun ut : string * Z => ut.1 = name /\ ut.2 = techId)
                (users_techs d) (name, techId) Hin) as [y Hy]; [done|].
    by exists y.
  - intros [[n t] Hr]. apply first_row_filter_Some in Hr as [Hin [Hn Ht]].
    simpl in *. by subst.
Qed.

Lemma addTechSkill_cases name techId d :
  (~ user_exists d name
   /\ User.addTechSkill name techId d
      = (Throw (NotFoundError ("No user: " +:+ name)), d))
  \/ (user_exists d name /\ ~ technology_exists d techId
      /\ User.addTechSkill name techId d
         = (Throw (NotFoundError ("No job: " +:+ string_of_Z techId)), d))
  \/ (user_exists d name /\ technology_exists d techId
      /\ (name, techId) ∈ users_techs d
      /\ User.addTechSkill name techId d
         = (Throw (BadRequestError "Duplicate tech skill addition."), d))
  \/ (user_exists d name /\ technology_exists d techId
      /\ ((name, techId) ∉ users_techs d)
      /\ User.addTechSkill name techId d
         = (Ok (Some (name, techId)), with_skill d name techId)).
Proof.
  pose proof (user_exists_first_row d name) as Huser.
  pose proof (technology_exists_first_row d techId) as Htech.
  pose proof (skill_first_row d name techId) as Hskill.
  unfold User.addTechSkill.
  destruct (first_row (user_username <$> _)) as [u|].
  2:{ left. split; [|done]. rewrite Huser. by intros [? ?]. }
  right. assert (user_exists d name) as Hu by (apply Huser; eauto).
  destruct (first_row (technology_id <$> _)) as [t|].
  2:{ left. split; [done|]. split; [|done]. rewrite Htech. by intros [? ?]. }
  right. assert (technology_exists d techId) as Ht by (apply Htech; eauto).
  destruct (first_row (filter _ (users_techs d))) as [r|].
  - left. repeat (split; [done|]). split; [|done]. apply Hskill. eauto.
  - right. repeat (split; [done|]). split; [|done].
    rewrite Hskill. by intros [? ?].
Qed.

(** X20: [User.addTechSkill] throws NotFoundError when the user or the
    technology does not exist and BadRequestError when the user already
    has the skill, in each case leaving the store as it was; otherwise it
    appends the pair.  Hence a skill table without duplicate pairs stays
    without duplicates. *)
Theorem addTechSkill_guards (name : string) (techId : Z) (d : db) :
  let res := (User.addTechSkill name techId d).1 in
  let d' := (User.addTechSkill name techId d).2 in
  (~ user_exists d name \/ ~ technology_exists d techId ->
     (exists msg, res = Throw (NotFoundError msg)) /\ d' = d)
  /\ (user_exists d name -> technology_exists d techId ->
      (name, techId) ∈ users_techs d ->
      res = Throw (BadRequestError "Duplicate tech skill addition.") /\ d' = d)
  /\ (forall e, res = Throw e -> d' = d)
  /\ (user_exists d name -> technology_exists d techId ->
      (name, techId) ∉ users_techs d ->
      res = Ok (Some (name, techId))
      /\ users_techs d' = users_techs d ++ [(name, techId)])
  /\ (NoDup (users_techs d) -> NoDup (users_techs d')).
Proof.
  intros res d'. subst res d'.
  destruct (addTechSkill_cases name techId d)
    as [(Hu & ->) | [(Hu & Ht & ->) | [(Hu & Ht & Hs & ->) | (Hu & Ht & Hs & ->)]]];
    cbn [fst snd with_skill users_techs].
  all: split; [intros Hor | split; [intros Hu' Ht' Hs' | split;
         [intros e He | split; [intros Hu' Ht' Hs' | intros Hnd]]]].
  all: try done.
  all: try (by destruct Hor).
  all: try (by split; eauto).
  apply NoDup_app. split; [done|]. split.
  - intros x Hx Hx'. apply list_elem_of_singleton in Hx'. by subst.
  - apply NoDup_singleton.
Qed.

Lemma addTechSkill_guards_witness :
  (User.addTechSkill "u1" 10 sample_db).1
  = Throw (BadRequestError "Duplicate tech skill addition.")
  /\ (User.addTechSkill "u1" 10 sample_db).2 = sample_db.
Proof.
  destruct (addTechSkill_guards "u1" 10 sample_db) as (_ & Hdup & _).
  apply Hdup.
  - eexists. split; [apply list_elem_of_here | reflexivity].
  - eexists. split; [apply list_elem_of_here | reflexivity].
  - apply list_elem_of_here.
Defined.

(** X21: A new skill can only win matches: after [User.addTechSkill] has
    succeeded the user's skills are the former ones and the new one, the
    other users' skills and all postings are as before, and every posting
    the user's skills matched is still matched. *)
Theorem addTechSkill_matches (name : string) (techId : Z) (d d' : db)
    (r : option (string * Z)) :
  User.addTechSkill name techId d = (Ok r, d') ->
  (forall t, t ∈ Job.techId <$> User.select_techSkills name d'
             <-> t = techId \/ t ∈ Job.techId <$> User.select_techSkills name d)
  /\ (forall other, other <> name ->
        User.select_techSkills other d' = User.select_techSkills other d)
  /\ Job.joined d' = Job.joined d
  /\ (forall j,
        matches d (Job.techId <$> User.select_techSkills name d) j = true ->
        matches d' (Job.techId <$> User.select_techSkills name d') j = true).
Proof.
  intros Hrun.
  destruct (addTechSkill_cases name techId d)
    as [(_ & H) | [(_ & _ & H) | [(_ & _ & _ & H) | (Hu & Ht & Hs & H)]]];
    rewrite H in Hrun; try discriminate Hrun.
  injection Hrun as _ <-.
  assert (forall t,
            t ∈ Job.techId <$> User.select_techSkills name (with_skill d name techId)
            <-> t = techId \/ t ∈ Job.techId <$> User.select_techSkills name d)
    as Hskills.
  { intros t. rewrite !select_techSkills_techId.
    unfold with_skill at 1. cbn [users_techs].
    rewrite elem_of_app, list_elem_of_singleton. split.
    - intros [[Hin | [= ->]] Hex]; [right; by split | by left].
    - intros [-> | [Hin Hex]]; split; auto. }
  split; [exact Hskills|]. split; [|split; [done|]].
  - intros other Hne. unfold User.select_techSkills, with_skill.
    cbn [users_techs technologies].
    rewrite filter_app, filter_cons, filter_nil.
    rewrite decide_False by (simpl; congruence).
    by rewrite app_nil_r.
  - intros j Hm. unfold matches in *.
    eapply isSubset_weaken; [exact Hm|done|].
    intros t Ht'. apply Hskills. by right.
Qed.

Lemma addTechSkill_matches_witness :
  12%Z ∈ Job.techId <$> User.select_techSkills "u1" (with_skill sample_db "u1" 12).
Proof.
  destruct (addTechSkill_matches "u1" 12 sample_db _ _ eq_refl) as (Hskills & _).
  apply Hskills. by left.
Defined.

(** ** Tokens *)


